(** * libradtran_disort_python_runner: the output parser and the run orchestrator

    Shallow embedding of [run_libradtran_extended.py].

    Modelling choices.
    - Text is [string]; a character is a code point below 256.  The parser
      and the orchestrator are first given on the decoded texts of the two
      streams of the solver ([parse_output], [run_libradtran]); the decoding
      of the byte streams, which comes first in the code and can raise, is
      in [run_libradtran_bytes].
    - A float is an element of an abstract type [F]; [float_of] is the
      conversion numpy applies to one token ([float], with [nan] for a token
      that is not a number, so it is total).  Nothing below computes with
      floats: the parser only moves them around.
    - A numpy value is an [ndarray] of dimension 0, 1 or 2, with its shape.
      A numpy scalar and a 0-d array are both [Nd0].
    - A Python exception is a [Raise]; a local variable that may be unbound
      is an [option], and reading it unbound raises [UnboundLocalError].
    - [loop_row_count] is a Python float, the quotient of two integers; it
      is kept as the exact pair (numerator, denominator), so [is_integer]
      is divisibility and [int] is truncation.  The float of the code is
      the quotient rounded to 53 bits: it agrees with the pair on
      [is_integer] and [int] while both integers are below 2^53, and what
      is proved of the warning is proved under that bound. *)

From Stdlib Require Import List ZArith Lia Bool Arith.
From Stdlib Require Import Strings.Ascii Strings.String.
Import ListNotations.

Open Scope list_scope.
Open Scope string_scope.

(** ** Exceptions *)

Inductive exn : Type :=
| IndexError
| UnboundLocalError
| ValueError
| ZeroDivisionError
| UnicodeDecodeError.

Inductive result (A : Type) : Type :=
| Ok (a : A)
| Raise (e : exn).
Arguments Ok {A} a.
Arguments Raise {A} e.

Definition bind {A B : Type} (m : result A) (k : A -> result B) : result B :=
  match m with
  | Ok a => k a
  | Raise e => Raise e
  end.

Notation "x <- m ;; k" := (bind m (fun x => k))
  (at level 61, m at next level, right associativity).

(** Reading a local variable. *)
Definition load {A : Type} (v : option A) : result A :=
  match v with
  | Some a => Ok a
  | None => Raise UnboundLocalError
  end.

Fixpoint mapM {A B : Type} (f : A -> result B) (l : list A) : result (list B) :=
  match l with
  | [] => Ok []
  | a :: l' => b <- f a ;; bs <- mapM f l' ;; Ok (b :: bs)
  end.

(** ** Python string operations *)

Definition newline : ascii := Ascii.ascii_of_nat 10.
Definition nl : string := String newline "".

(** [s.split(sep)] for a separator of one character. *)
Fixpoint split (sep : ascii) (s : string) : list string :=
  match s with
  | EmptyString => [""]
  | String c s' =>
      if Ascii.eqb c sep then "" :: split sep s'
      else match split sep s' with
           | h :: t => String c h :: t
           | [] => [String c ""]
           end
  end.

(** [s[:n]] and [s[n:]] for [n >= 0]; a slice never raises. *)
Fixpoint str_take (n : nat) (s : string) : string :=
  match n, s with
  | S n', String c s' => String c (str_take n' s')
  | _, _ => ""
  end.

Fixpoint str_drop (n : nat) (s : string) : string :=
  match n, s with
  | S n', String _ s' => str_drop n' s'
  | _, _ => s
  end.

(** [s.startswith(w)]. *)
Fixpoint startswith (w s : string) : bool :=
  match w, s with
  | EmptyString, _ => true
  | String a w', String b s' => Ascii.eqb a b && startswith w' s'
  | String _ _, EmptyString => false
  end.

(** [s.find(w)]: the lowest index at which [w] occurs, [-1] when there is
    none. *)
Fixpoint find_from (w s : string) (i : Z) : Z :=
  if startswith w s then i
  else match s with
       | EmptyString => (-1)%Z
       | String _ s' => find_from w s' (i + 1)%Z
       end.

Definition find (w s : string) : Z := find_from w s 0%Z.

(** Python's [str.isspace] on one character (code points below 256). *)
Definition isspace (c : ascii) : bool :=
  let n := Ascii.nat_of_ascii c in
  (Nat.leb 9 n && Nat.leb n 13) || (Nat.leb 28 n && Nat.leb n 32)
  || Nat.eqb n 133 || Nat.eqb n 160.

(** [s.split()]: the maximal runs of non-space characters.  [cur] is the
    run being read, reversed. *)
Definition rev_string (cs : list ascii) : string :=
  string_of_list_ascii (rev cs).

Fixpoint ws_split_aux (s : string) (cur : list ascii) : list string :=
  match s with
  | EmptyString =>
      match cur with [] => [] | _ => [rev_string cur] end
  | String c s' =>
      if isspace c then
        match cur with
        | [] => ws_split_aux s' []
        | _ => rev_string cur :: ws_split_aux s' []
        end
      else ws_split_aux s' (c :: cur)
  end.

Definition ws_split (s : string) : list string := ws_split_aux s [].

(** [line.split("#")[0]]: the text before the first comment mark. *)
Fixpoint before_hash (s : string) : string :=
  match s with
  | EmptyString => ""
  | String c s' => if Ascii.eqb c "#"%char then "" else String c (before_hash s')
  end.

(** The fields numpy's line splitter finds on one line. *)
Definition tokens (line : string) : list string := ws_split (before_hash line).

(** ** numpy arrays *)

Section Parser.

Variable F : Type.
Variable float_of : string -> F.

Inductive ndarray : Type :=
| Nd0 (x : F)
| Nd1 (l : list F)
| Nd2 (nrows ncols : nat) (rows : list (list F)).

(** [np.genfromtxt(StringIO(line))] for text of one line: no field gives an
    empty 1-d array, one field a 0-d array, more a 1-d array. *)
Definition genfromtxt (line : string) : ndarray :=
  match tokens line with
  | [] => Nd1 []
  | [t] => Nd0 (float_of t)
  | ts => Nd1 (map float_of ts)
  end.

(** [np.expand_dims(a, axis=0)]. *)
Definition expand_dims0 (a : ndarray) : ndarray :=
  match a with
  | Nd0 x => Nd1 [x]
  | Nd1 l => Nd2 1 (List.length l) [l]
  | Nd2 r c rows => Nd2 r c rows
  end.

(** [np.expand_dims(a, axis=1)] of a 1-d array: a column. *)
Definition expand_dims1 (a : ndarray) : result ndarray :=
  match a with
  | Nd0 _ => Raise ValueError
  | Nd1 l => Ok (Nd2 (List.length l) 1 (map (fun x => [x]) l))
  | Nd2 r c rows => Ok (Nd2 r c rows)
  end.

(** [a[i]] on the array of the basic line. *)
Definition getitem (a : ndarray) (i : nat) : result F :=
  match a with
  | Nd1 l => match nth_error l i with
             | Some x => Ok x
             | None => Raise IndexError
             end
  | _ => Raise IndexError
  end.

(** [row[0, j]]: two indices need a 2-d array. *)
Definition getitem2 (a : ndarray) (j : nat) : result ndarray :=
  match a with
  | Nd2 _ _ (r :: _) =>
      match nth_error r j with
      | Some x => Ok (Nd0 x)
      | None => Raise IndexError
      end
  | _ => Raise IndexError
  end.

(** [row[0, 2:]]. *)
Definition getslice2 (a : ndarray) (j : nat) : result ndarray :=
  match a with
  | Nd2 _ _ (r :: _) => Ok (Nd1 (skipn j r))
  | _ => Raise IndexError
  end.

(** [np.append(a, v)] with no axis: both are flattened. *)
Definition flatten (a : ndarray) : list F :=
  match a with
  | Nd0 x => [x]
  | Nd1 l => l
  | Nd2 _ _ rows => List.concat rows
  end.

Definition np_append (a v : ndarray) : ndarray :=
  Nd1 (flatten a ++ flatten v)%list.

(** [np.append(a, v, axis=1)]: both 2-d with the same number of rows. *)
Fixpoint zip_rows (a b : list (list F)) : list (list F) :=
  match a, b with
  | ra :: a', rb :: b' => (ra ++ rb)%list :: zip_rows a' b'
  | _, _ => []
  end.

Definition np_append_axis1 (a v : ndarray) : result ndarray :=
  match a, v with
  | Nd2 r c rows, Nd2 r' c' rows' =>
      if Nat.eqb r r' then Ok (Nd2 r (c + c') (zip_rows rows rows'))
      else Raise ValueError
  | _, _ => Raise ValueError
  end.

(** A Python value held by a field that may be [None]. *)
Definition pyval : Type := option ndarray.

Definition parsed : Type := (ndarray * pyval * pyval * pyval * pyval)%type.

(** ** The three block parsers *)

Definition output_format_1_parser (vals : string) : result parsed :=
  let outdata_basic := genfromtxt vals in
  Ok (outdata_basic, None, None, None, None).

(** The loop over [enumerate(vals[1:])]; the state is the pair of locals
    [umu], [u0u], each unbound until first assigned. *)
Fixpoint format_2_loop (i : nat) (vals : list string)
    (umu u0u : option ndarray) : result (option ndarray * option ndarray) :=
  match vals with
  | [] => Ok (umu, u0u)
  | val :: rest =>
      if String.eqb val "" then format_2_loop (S i) rest umu u0u
      else
        let row := expand_dims0 (genfromtxt val) in
        match i with
        | O =>
            a <- getitem2 row 0 ;;
            b <- getitem2 row 1 ;;
            format_2_loop (S i) rest (Some a) (Some b)
        | S _ =>
            u <- load umu ;;
            a <- getitem2 row 0 ;;
            w <- load u0u ;;
            b <- getitem2 row 1 ;;
            format_2_loop (S i) rest (Some (np_append u a)) (Some (np_append w b))
        end
  end.

Definition output_format_2_parser (vals : list string) : result parsed :=
  match vals with
  | [] => Raise IndexError
  | v0 :: rest =>
      let outdata_basic := genfromtxt v0 in
      st <- format_2_loop 0 rest None None ;;
      let '(umu, u0u) := st in
      umu' <- load umu ;;
      u0u' <- load u0u ;;
      Ok (outdata_basic, Some umu', None, Some u0u', None)
  end.

Record locals3 : Type := mkLocals3 {
  l_umu : option ndarray;
  l_u0u : option ndarray;
  l_uu : option ndarray
}.

Fixpoint format_3_loop (i : nat) (vals : list string) (st : locals3)
    : result locals3 :=
  match vals with
  | [] => Ok st
  | val :: rest =>
      if String.eqb val "" then format_3_loop (S i) rest st
      else
        let row := expand_dims0 (genfromtxt val) in
        match i with
        | O =>
            a <- getitem2 row 0 ;;
            b <- getitem2 row 1 ;;
            tl <- getslice2 row 2 ;;
            col <- expand_dims1 tl ;;
            format_3_loop (S i) rest (mkLocals3 (Some a) (Some b) (Some col))
        | S _ =>
            u <- load (l_umu st) ;;
            a <- getitem2 row 0 ;;
            w <- load (l_u0u st) ;;
            b <- getitem2 row 1 ;;
            m <- load (l_uu st) ;;
            tl <- getslice2 row 2 ;;
            col <- expand_dims1 tl ;;
            m' <- np_append_axis1 m col ;;
            format_3_loop (S i) rest
              (mkLocals3 (Some (np_append u a)) (Some (np_append w b)) (Some m'))
        end
  end.

Definition output_format_3_parser (vals : list string) : result parsed :=
  match vals with
  | v0 :: v1 :: rest =>
      let outdata_basic := genfromtxt v0 in
      let phi := genfromtxt v1 in
      st <- format_3_loop 0 rest (mkLocals3 None None None) ;;
      umu <- load (l_umu st) ;;
      u0u <- load (l_u0u st) ;;
      uu <- load (l_uu st) ;;
      Ok (outdata_basic, Some umu, Some phi, Some u0u, Some uu)
  | _ => Raise IndexError
  end.

End Parser.

Arguments Nd0 {F} x.
Arguments Nd1 {F} l.
Arguments Nd2 {F} nrows ncols rows.
Arguments expand_dims0 {F} a.
Arguments expand_dims1 {F} a.
Arguments getitem {F} a i.
Arguments getitem2 {F} a j.
Arguments getslice2 {F} a j.
Arguments flatten {F} a.
Arguments np_append {F} a v.
Arguments zip_rows {F} a b.
Arguments np_append_axis1 {F} a v.
Arguments mkLocals3 {F} l_umu l_u0u l_uu.
Arguments l_umu {F} l.
Arguments l_u0u {F} l.
Arguments l_uu {F} l.
Arguments genfromtxt {F} float_of line.
Arguments output_format_1_parser {F} float_of vals.
Arguments format_2_loop {F} float_of i vals umu u0u.
Arguments output_format_2_parser {F} float_of vals.
Arguments format_3_loop {F} float_of i vals st.
Arguments output_format_3_parser {F} float_of vals.

(** ** The orchestrator *)

(** [conf]: the parser options, read with [int(conf[...])]. *)
Record parser_conf : Type := mkConf {
  output_format : Z;
  umu_length : Z
}.

(** What [pros.communicate] and [pros.returncode] give. *)
Record proc_result : Type := mkProc {
  returncode : Z;
  stdout : string;
  stderr : string
}.

(** The temporary files that exist while the solver runs: path, content. *)
Definition files : Type := list (string * string).

(** What [print] wrote.  [PrintFloat n d] is the float [n / d]. *)
Inductive printed : Type :=
| PrintStr (s : string)
| PrintFloat (n d : Z).

(** [vals[a:b]] for [0 <= a], [0 <= b]. *)
Definition slice {A : Type} (a b : nat) (l : list A) : list A :=
  skipn a (firstn b l).

(** [add_to_main_input_str]. *)
Definition word : string := "disort".

Definition add_to_main_input_str
    (main_str temp_file_var_name temp_file_name : string) : string :=
  let start_index := find word main_str in
  let end_index := (start_index + Z.of_nat (String.length word))%Z in
  let temp_str_to_add := nl ++ temp_file_var_name ++ " " ++ temp_file_name in
  str_take (Z.to_nat end_index) main_str
    ++ temp_str_to_add ++ str_drop (Z.to_nat end_index) main_str.

Section Runner.

Variable F : Type.
Variable float_of : string -> F.

(** The solver binary: from the temporary files, the directory of the
    binary and the text on its standard input, to what the process gives. *)
Variable uvspec : files -> string -> string -> proc_result.

(** The path of the [n]-th temporary file the process creates. *)
Variable temp_name : nat -> string.

Record output_dict : Type := mkOutput {
  o_lambda : F;
  o_edir : F;
  o_edn : F;
  o_eup : F;
  o_uavgdir : F;
  o_uavgdn : F;
  o_uavup : F;
  o_umu : pyval F;
  o_phi : pyval F;
  o_u0u : pyval F;
  o_uu : pyval F;
  o_message : string
}.

(** What [run_libradtran] returns: the error text or the list [output]. *)
Inductive retval : Type :=
| RetError (error : string)
| RetOutput (output : list output_dict).

(** [loop_row_count] as numerator and denominator; [n] is
    [len(vals) - 1].  With no branch taken the name is unbound. *)
Definition loop_row_count (conf : parser_conf) (n : Z) : result (Z * Z) :=
  if (output_format conf =? 0)%Z then Ok (n, 1%Z)
  else if (output_format conf =? 1)%Z then
    if (1 + umu_length conf =? 0)%Z then Raise ZeroDivisionError
    else Ok (n, (1 + umu_length conf)%Z)
  else if (output_format conf =? 2)%Z then
    if (2 + umu_length conf =? 0)%Z then Raise ZeroDivisionError
    else Ok (n, (2 + umu_length conf)%Z)
  else Raise UnboundLocalError.

(** [loop_row_count.is_integer()] and [int(loop_row_count)] on the exact
    quotient; the float of the code gives the same while numerator and
    denominator are below 2^53. *)
Definition is_integer (q : Z * Z) : bool := (Z.rem (fst q) (snd q) =? 0)%Z.
Definition int_of (q : Z * Z) : Z := Z.quot (fst q) (snd q).

(** The rows of case [ind] and the parser of the format. *)
Definition parse_rows (conf : parser_conf) (vals : list string) (ind : nat)
    : result (parsed F) :=
  if (output_format conf =? 0)%Z then
    match nth_error vals ind with
    | Some rows => output_format_1_parser float_of rows
    | None => Raise IndexError
    end
  else if (output_format conf =? 1)%Z then
    let k := (1 + umu_length conf)%Z in
    let rows := slice (Z.to_nat (Z.of_nat ind * k))
                      (Z.to_nat ((Z.of_nat ind + 1) * k)) vals in
    output_format_2_parser float_of rows
  else if (output_format conf =? 2)%Z then
    let k := (2 + umu_length conf)%Z in
    let rows := slice (Z.to_nat (Z.of_nat ind * k))
                      (Z.to_nat ((Z.of_nat ind + 1) * k)) vals in
    output_format_3_parser float_of rows
  else Raise UnboundLocalError.

(** One turn of the loop over [range(int(loop_row_count))]. *)
Definition parse_case (conf : parser_conf) (vals : list string)
    (error : string) (ind : nat) : result output_dict :=
  p <- parse_rows conf vals ind ;;
  let '(outdata_basic, umu, phi, u0u, uu) := p in
  f0 <- getitem outdata_basic 0 ;;
  f1 <- getitem outdata_basic 1 ;;
  f2 <- getitem outdata_basic 2 ;;
  f3 <- getitem outdata_basic 3 ;;
  f4 <- getitem outdata_basic 4 ;;
  f5 <- getitem outdata_basic 5 ;;
  f6 <- getitem outdata_basic 6 ;;
  Ok (mkOutput f0 f1 f2 f3 f4 f5 f6 umu phi u0u uu error).

Definition row_count_warning (q : Z * Z) : list printed :=
  if is_integer q then []
  else [PrintStr "Something went wrong with row counting";
        PrintFloat (fst q) (snd q)].

(** The part of [run_libradtran] after the two streams were decoded, from
    the test of the status on (lines 213 to 253); [pros] holds the decoded
    texts.  The whole function, decoding included, is
    [run_libradtran_bytes]. *)
Definition parse_output (pros : proc_result) (conf : parser_conf)
    : list printed * result retval :=
  if negb (returncode pros =? 0)%Z then ([], Ok (RetError (stderr pros)))
  else
    let vals := split newline (stdout pros) in
    match loop_row_count conf (Z.of_nat (List.length vals) - 1)%Z with
    | Raise e => ([], Raise e)
    | Ok q =>
        (row_count_warning q,
         output <- mapM (parse_case conf vals (stderr pros))
                        (seq 0 (Z.to_nat (int_of q))) ;;
         Ok (RetOutput output))
    end.

Definition run_libradtran (fs : files) (libradtran_bin_file_loc params : string)
    (conf : parser_conf) : list printed * result retval :=
  parse_output (uvspec fs libradtran_bin_file_loc params) conf.

(** A configuration held in memory; [temp_strs] is the optional section,
    its keys in the order of the mapping.  Reading a configuration from an
    [.ini] file is input from the file system and is not part of the model:
    the list holds configurations already read. *)
Record configuration : Type := mkConfiguration {
  parser_options : parser_conf;
  input_str : string;
  temp_strs : option (list (string * string))
}.

(** The loop over the keys of [temp_strs]: [n] counts the temporary files
    made so far. *)
Fixpoint write_temp_files (n : nat) (temp_files : list (string * string))
    (main_input_str : string) (fs : files) : nat * string * files :=
  match temp_files with
  | [] => (n, main_input_str, fs)
  | (key, content) :: rest =>
      let name := temp_name n in
      write_temp_files (S n) rest
        (add_to_main_input_str main_input_str key name)
        ((name, content) :: fs)
  end.

(** The input text and the files the solver is given for one
    configuration. *)
Definition prepare (n : nat) (c : configuration) : nat * string * files :=
  match temp_strs c with
  | Some temp_files => write_temp_files n temp_files (input_str c) []
  | None => (n, input_str c, [])
  end.

Definition run_conf (libradtran_bin_file_loc : string) (n : nat)
    (c : configuration) : nat * (list printed * result retval) :=
  let '(n', main_input_str, fs) := prepare n c in
  (n', run_libradtran fs libradtran_bin_file_loc main_input_str
         (parser_options c)).

(** [run_conf_files_libradtran]: an exception in one turn ends the call. *)
Fixpoint run_conf_files_loop (libradtran_bin_file_loc : string) (n : nat)
    (conf_file_list : list configuration) (log : list printed)
    (conf_results : list retval) : list printed * result (list retval) :=
  match conf_file_list with
  | [] => (log, Ok conf_results)
  | c :: rest =>
      let '(n', (out, r)) := run_conf libradtran_bin_file_loc n c in
      match r with
      | Raise e => ((log ++ out)%list, Raise e)
      | Ok results =>
          run_conf_files_loop libradtran_bin_file_loc n' rest
            (log ++ out)%list (conf_results ++ [results])%list
      end
  end.

Definition run_conf_files_libradtran (libradtran_bin_file_loc : string)
    (conf_file_list : list configuration)
    : list printed * result (list retval) :=
  run_conf_files_loop libradtran_bin_file_loc 0 conf_file_list [] [].

End Runner.

Arguments mkOutput {F}.
Arguments o_lambda {F} o.
Arguments o_edir {F} o.
Arguments o_edn {F} o.
Arguments o_eup {F} o.
Arguments o_uavgdir {F} o.
Arguments o_uavgdn {F} o.
Arguments o_uavup {F} o.
Arguments o_umu {F} o.
Arguments o_phi {F} o.
Arguments o_u0u {F} o.
Arguments o_uu {F} o.
Arguments o_message {F} o.
Arguments RetError {F} error.
Arguments RetOutput {F} output.
Arguments parse_rows {F} float_of conf vals ind.
Arguments parse_case {F} float_of conf vals error ind.
Arguments parse_output {F} float_of pros conf.
Arguments run_libradtran {F} float_of uvspec fs libradtran_bin_file_loc params conf.
Arguments run_conf {F} float_of uvspec temp_name libradtran_bin_file_loc n c.
Arguments run_conf_files_loop {F} float_of uvspec temp_name.
Arguments run_conf_files_libradtran {F} float_of uvspec temp_name.

(** ** Vocabulary of the specification *)

(** The text the solver writes for a list of lines: each line ends with a
    newline, so the split text ends with an empty string. *)
Fixpoint unlines (lines : list string) : string :=
  match lines with
  | [] => ""
  | l :: rest => l ++ nl ++ unlines rest
  end.

Fixpoint no_newline (s : string) : bool :=
  match s with
  | EmptyString => true
  | String c s' => negb (Ascii.eqb c newline) && no_newline s'
  end.

(** The texts of a list, one after the other. *)
Fixpoint join (l : list string) : string :=
  match l with
  | [] => ""
  | x :: r => x ++ join r
  end.

(** The line holds at least [n] fields. *)
Definition has_fields (n : nat) (line : string) : bool :=
  Nat.leb n (List.length (tokens line)).

Definition nonempty (line : string) : bool := negb (String.eqb line "").

(** [w] occurs in [s]. *)
Definition occurs (w s : string) : Prop := exists a b, s = a ++ w ++ b.

(** [pre] is the text before the first occurrence: the word starts at no
    position inside [pre]. *)
Definition first_at (w pre : string) : Prop :=
  forall j, j < String.length pre -> startswith w (str_drop j (pre ++ w)) = false.

(** The lines of one case. *)
Definition lines_per_case (conf : parser_conf) : Z :=
  if (output_format conf =? 0)%Z then 1%Z
  else if (output_format conf =? 1)%Z then (1 + umu_length conf)%Z
  else (2 + umu_length conf)%Z.

Definition block (conf : parser_conf) (vals : list string) (ind : nat)
    : list string :=
  let k := lines_per_case conf in
  slice (Z.to_nat (Z.of_nat ind * k)) (Z.to_nat ((Z.of_nat ind + 1) * k)) vals.

(** A well-formed block: the basic line has its seven fields, there is at
    least one viewing-angle line, each has its two leading fields, and for
    format 2 they all have as many fields as the first one. *)
Definition well_formed_block (conf : parser_conf) (rows : list string) : bool :=
  (Z.of_nat (List.length rows) =? lines_per_case conf)%Z &&
  if (output_format conf =? 0)%Z then
    match rows with
    | [b] => has_fields 7 b
    | _ => false
    end
  else if (output_format conf =? 1)%Z then
    match rows with
    | b :: v :: views => has_fields 7 b && forallb (has_fields 2) (v :: views)
    | _ => false
    end
  else if (output_format conf =? 2)%Z then
    match rows with
    | b :: phi :: v :: views =>
        has_fields 7 b && has_fields 2 v &&
        forallb (fun l => Nat.eqb (List.length (tokens l))
                                  (List.length (tokens v))) views
    | _ => false
    end
  else false.

(** The directive lines and the files of a [temp_strs] mapping, the
    [n]-th temporary file being the first one made. *)
Fixpoint directives (temp_name : nat -> string) (n : nat)
    (temp_files : list (string * string)) : list string :=
  match temp_files with
  | [] => []
  | (key, _) :: rest =>
      (nl ++ key ++ " " ++ temp_name n) :: directives temp_name (S n) rest
  end.

Fixpoint stored (temp_name : nat -> string) (n : nat)
    (temp_files : list (string * string)) : files :=
  match temp_files with
  | [] => []
  | (_, content) :: rest =>
      (temp_name n, content) :: stored temp_name (S n) rest
  end.

Section Decoded.

Variable F : Type.
Variable float_of : string -> F.

(** Field [j] of a line, as a float. *)
Definition field (j : nat) (line : string) : F :=
  float_of (nth j (tokens line) "").

Definition zenith (line : string) : F := field 0 line.
Definition intensity (line : string) : F := field 1 line.
Definition radiances (line : string) : list F :=
  skipn 2 (map float_of (tokens line)).

(** What numpy holds after a scalar was extended by [np.append]: one
    value stays a scalar, more make a 1-d array. *)
Definition np_seq (l : list F) : ndarray F :=
  match l with
  | [x] => Nd0 x
  | _ => Nd1 l
  end.

(** The radiance table of format 2 for viewing-angle lines of [2 + m]
    fields: row [j] holds field [2 + j] of each line, in line order. *)
Definition radiance_rows (m : nat) (views : list string) : list (list F) :=
  map (fun j => map (field (2 + j)) views) (seq 0 m).

(** The record of a format 0 line. *)
Definition basic_record (error line : string) : output_dict F :=
  mkOutput (field 0 line) (field 1 line) (field 2 line) (field 3 line)
    (field 4 line) (field 5 line) (field 6 line) None None None None error.

(** The record of a block. *)
Definition block_record (conf : parser_conf) (error : string)
    (rows : list string) : output_dict F :=
  let b := hd "" rows in
  let basic umu phi u0u uu :=
    mkOutput (field 0 b) (field 1 b) (field 2 b) (field 3 b)
      (field 4 b) (field 5 b) (field 6 b) umu phi u0u uu error in
  if (output_format conf =? 0)%Z then basic None None None None
  else if (output_format conf =? 1)%Z then
    let views := tl rows in
    basic (Some (np_seq (map zenith views))) None
          (Some (np_seq (map intensity views))) None
  else
    let views := tl (tl rows) in
    let m := List.length (tokens (hd "" views)) - 2 in
    basic (Some (np_seq (map zenith views)))
          (Some (genfromtxt float_of (hd "" (tl rows))))
          (Some (np_seq (map intensity views)))
          (Some (Nd2 m (List.length views) (radiance_rows m views))).

End Decoded.

(** The input text and the files each configuration of a batch is run
    with, [n] temporary files having been made before. *)
Fixpoint prepared (temp_name : nat -> string) (n : nat)
    (conf_file_list : list configuration)
    : list (configuration * string * files) :=
  match conf_file_list with
  | [] => []
  | c :: rest =>
      let '(n', main_input_str, fs) := prepare temp_name n c in
      (c, main_input_str, fs) :: prepared temp_name n' rest
  end.

Section Contribution.

Variable F : Type.
Variable float_of : string -> F.
Variable uvspec : files -> string -> string -> proc_result.

(** What one configuration contributes: what [run_libradtran] returns on
    its input text. *)
Definition contributes (loc : string) (p : configuration * string * files)
    (r : retval F) : Prop :=
  let '(c, text, fs) := p in
  snd (run_libradtran float_of uvspec fs loc text (parser_options c)) = Ok r.

End Contribution.

Arguments contributes {F} float_of uvspec loc p r.

(** ** Concrete instances used in the examples

    A float is stood for by its literal.  The solver of the examples
    prints the text it is given on its standard output, except for the
    text [bad], on which it fails. *)
Definition literal (s : string) : string := s.

Definition echo_solver (fs : files) (loc params : string) : proc_result :=
  mkProc 0%Z params "".

Definition example_solver (fs : files) (loc params : string) : proc_result :=
  if String.eqb params "bad" then mkProc 1%Z "" "Error: bad input"
  else mkProc 0%Z params "".

Definition failing_solver (fs : files) (loc params : string) : proc_result :=
  mkProc 2%Z ("550 1 2 3 4 5 6" ++ nl) "uvspec: fatal".

Definition example_temp_name (n : nat) : string :=
  "/tmp/d/f" ++ String (Ascii.ascii_of_nat (48 + n)) "".

(** Three configurations: the second makes the solver fail, the third has
    one auxiliary file. *)
Definition example_batch : list configuration :=
  [mkConfiguration (mkConf 0 0) (unlines ["550 1 2 3 4 5 6"]) None;
   mkConfiguration (mkConf 0 0) "bad" None;
   mkConfiguration (mkConf 0 0) ("551 1 2 3 4 5 6 #disort" ++ nl)
     (Some [("552 7 8 9 10 11", "0 0.2")])].

(** ** The other functions of the module *)

(** The words of a list with one blank between them. *)
Fixpoint unwords (l : list string) : string :=
  match l with
  | [] => ""
  | [x] => x
  | x :: r => x ++ " " ++ unwords r
  end.

(** A text that numpy reads as one field: no blank and no comment mark. *)
Fixpoint plain (s : string) : bool :=
  match s with
  | EmptyString => true
  | String c s' => negb (isspace c) && negb (Ascii.eqb c "#"%char) && plain s'
  end.

Definition is_token (s : string) : bool := nonempty s && plain s.

Section WholeText.

Variable F : Type.
Variable float_of : string -> F.

(** [np.squeeze]: the axes of length one are dropped. *)
Definition squeeze (a : ndarray F) : ndarray F :=
  match a with
  | Nd2 1 1 [[x]] => Nd0 x
  | Nd2 1 _ [r] => Nd1 r
  | Nd2 _ 1 rows => Nd1 (List.concat rows)
  | Nd1 [x] => Nd0 x
  | _ => a
  end.

(** [np.genfromtxt(StringIO(text))] for a text of several lines: the lines
    without a field are passed over, the first line that has fields sets
    the number of columns, a line with another number of fields makes the
    call raise, and the table is squeezed. *)
Definition genfromtxt_text (text : string) : result (ndarray F) :=
  let rows := filter (fun r => negb (Nat.eqb (List.length r) 0))
                     (map tokens (split newline text)) in
  match rows with
  | [] => Ok (Nd1 [])
  | r0 :: rest =>
      if forallb (fun r => Nat.eqb (List.length r) (List.length r0)) rest
      then Ok (squeeze (Nd2 (List.length rows) (List.length r0)
                          (map (map float_of) rows)))
      else Raise ValueError
  end.

(** The [pmom] binary: from the directory of the binary, the text written
    to the temporary file and the number of moments, to what the process
    gives. *)
Variable pmom : string -> string -> Z -> proc_result.

(** How a call of [run_pmom] ends: it returns the table, numpy raises, or
    the function raises [OSError] with the error text. *)
Inductive pmom_outcome : Type :=
| PmomReturn (vals : ndarray F)
| PmomRaise (e : exn)
| PmomOSError (error : string).

(** [run_pmom]: the output is read by numpy before the status is looked
    at. *)
Definition run_pmom (libradtran_bin_file_loc profile_string : string)
    (moments : Z) : pmom_outcome :=
  let proc := pmom libradtran_bin_file_loc profile_string moments in
  match genfromtxt_text (stdout proc) with
  | Raise e => PmomRaise e
  | Ok vals =>
      if negb (returncode proc =? 0)%Z then PmomOSError (stderr proc)
      else PmomReturn vals
  end.

End WholeText.

Arguments squeeze {F} a.
Arguments genfromtxt_text {F} float_of text.
Arguments PmomReturn {F} vals.
Arguments PmomRaise {F} e.
Arguments PmomOSError {F} error.
Arguments run_pmom {F} float_of pmom libradtran_bin_file_loc profile_string moments.

Section Writers.

(** The elements of the two columns and how [str] writes them. *)
Variable A B : Type.
Variable str_a : A -> string.
Variable str_b : B -> string.

(** The loop of [profile_parser] over [enumerate(zip(col1, col2))];
    [ar_str] is unbound until the first turn. *)
Fixpoint profile_loop (ind : nat) (pairs : list (A * B))
    (ar_str : option string) : result (option string) :=
  match pairs with
  | [] => Ok ar_str
  | (hei, val) :: rest =>
      match ind with
      | O =>
          profile_loop (S ind) rest (Some (str_a hei ++ " " ++ str_b val ++ nl))
      | S _ =>
          let val_str := str_a hei ++ " " ++ str_b val ++ nl in
          s <- load ar_str ;;
          profile_loop (S ind) rest (Some (s ++ val_str))
      end
  end.

Definition profile_parser (col1 : list A) (col2 : list B) : result string :=
  st <- profile_loop 0 (combine col1 col2) None ;;
  load st.

(** One line of a profile. *)
Definition profile_line (p : A * B) : string :=
  str_a (fst p) ++ " " ++ str_b (snd p).

(** How [str] writes a whole array (brackets included), and how an
    f-string writes one value, [format(val, "")], which for some element
    types is not what [str] writes. *)
Variable str_array : ndarray A -> string.
Variable fmt_a : A -> string.

(** [ar.size]. *)
Definition size (ar : ndarray A) : nat :=
  match ar with
  | Nd0 _ => 1
  | Nd1 l => List.length l
  | Nd2 r c _ => r * c
  end.

(** What iterating over the array gives: the values of a 1-d array, the
    rows of a 2-d array; each element with what [str] writes for it and
    what an f-string writes for it (for a row, which has no format of its
    own, both are [str] of the row).  A 0-d array has size 1 and is never
    iterated. *)
Definition items (ar : ndarray A) : list (string * string) :=
  match ar with
  | Nd0 _ => []
  | Nd1 l => map (fun x => (str_a x, fmt_a x)) l
  | Nd2 _ _ rows => map (fun r => (str_array (Nd1 r), str_array (Nd1 r))) rows
  end.

(** The loop over [enumerate(ar)]: the first element is written by
    [str(val)], the others by the f-string. *)
Fixpoint array_loop (ind : nat) (vals : list (string * string))
    (ar_str : option string) : result (option string) :=
  match vals with
  | [] => Ok ar_str
  | val :: rest =>
      match ind with
      | O => array_loop (S ind) rest (Some (fst val))
      | S _ =>
          s <- load ar_str ;;
          array_loop (S ind) rest (Some (s ++ " " ++ snd val))
      end
  end.

(** The values of a 1-d array as the loop writes them. *)
Definition written (l : list A) : list string :=
  match l with
  | [] => []
  | x :: rest => str_a x :: map fmt_a rest
  end.

Definition array_to_string_parser (ar : ndarray A) : result string :=
  if Nat.eqb (size ar) 1 then Ok (str_array ar)
  else
    st <- array_loop 0 (items ar) None ;;
    load st.

End Writers.

Arguments profile_loop {A B} str_a str_b ind pairs ar_str.
Arguments profile_parser {A B} str_a str_b col1 col2.
Arguments profile_line {A B} str_a str_b p.
Arguments size {A} ar.
Arguments items {A} str_a str_array fmt_a ar.
Arguments written {A} str_a fmt_a l.
Arguments array_to_string_parser {A} str_a str_array fmt_a ar.

(** How the examples write an array: its values between brackets. *)
Definition example_str_array (a : ndarray string) : string :=
  "[" ++ unwords (flatten a) ++ "]".

Definition example_pmom (loc profile_string : string) (moments : Z)
    : proc_result :=
  if String.eqb profile_string "" then mkProc 1%Z "" "pmom: empty file"
  else mkProc 0%Z profile_string "".

(** Two configurations for the solver that prints its input: the output of
    the second one has a line of three fields. *)
Definition example_batch_short_line : list configuration :=
  [mkConfiguration (mkConf 0 0) (unlines ["550 1 2 3 4 5 6"]) None;
   mkConfiguration (mkConf 0 0) (unlines ["551 1 2"]) None].

(** ** The byte streams

    [communicate] gives the two streams as bytes, and [run_libradtran]
    decodes both (lines 211 and 212) before it looks at the status.
    [parse_output] and [run_libradtran] above are the function on the
    decoded texts; here is the whole of it.  A byte string is a [string]
    whose characters are the bytes. *)

(** What [pros.communicate] and [pros.returncode] give, before decoding. *)
Record raw_result : Type := mkRaw {
  raw_returncode : Z;
  raw_stdout : string;
  raw_stderr : string
}.

Section Bytes.

Variable F : Type.
Variable float_of : string -> F.

(** [bytes.decode()]: the text, or [None] where Python raises
    [UnicodeDecodeError]. *)
Variable decode : string -> option string.

(** The solver process, its streams still bytes. *)
Variable popen : files -> string -> string -> raw_result.
Variable temp_name : nat -> string.

(** [run_libradtran], lines 209 to 253. *)
Definition run_libradtran_bytes (fs : files)
    (libradtran_bin_file_loc params : string) (conf : parser_conf)
    : list printed * result (retval F) :=
  let pros := popen fs libradtran_bin_file_loc params in
  match decode (raw_stdout pros) with
  | None => ([], Raise UnicodeDecodeError)
  | Some vals =>
      match decode (raw_stderr pros) with
      | None => ([], Raise UnicodeDecodeError)
      | Some error =>
          parse_output float_of (mkProc (raw_returncode pros) vals error) conf
      end
  end.

(** [run_conf_files_libradtran] over it. *)
Fixpoint run_conf_files_loop_bytes (libradtran_bin_file_loc : string)
    (n : nat) (conf_file_list : list configuration) (log : list printed)
    (conf_results : list (retval F))
    : list printed * result (list (retval F)) :=
  match conf_file_list with
  | [] => (log, Ok conf_results)
  | c :: rest =>
      let '(n', main_input_str, fs) := prepare temp_name n c in
      let '(out, r) :=
        run_libradtran_bytes fs libradtran_bin_file_loc main_input_str
          (parser_options c) in
      match r with
      | Raise e => ((log ++ out)%list, Raise e)
      | Ok results =>
          run_conf_files_loop_bytes libradtran_bin_file_loc n' rest
            (log ++ out)%list (conf_results ++ [results])%list
      end
  end.

Definition run_conf_files_libradtran_bytes (libradtran_bin_file_loc : string)
    (conf_file_list : list configuration)
    : list printed * result (list (retval F)) :=
  run_conf_files_loop_bytes libradtran_bin_file_loc 0 conf_file_list [] [].

End Bytes.

Arguments run_libradtran_bytes {F} float_of decode popen fs
  libradtran_bin_file_loc params conf.
Arguments run_conf_files_loop_bytes {F} float_of decode popen temp_name.
Arguments run_conf_files_libradtran_bytes {F} float_of decode popen temp_name.

(** The decoder of the examples: UTF-8 for the byte strings that encode
    code points below 256, the texts of this model.  A byte below 128 is
    its own character, [C2] or [C3] with a continuation byte is one
    character from 128 to 255; a byte that starts no UTF-8 sequence or a
    sequence cut short has no decoding, as in Python.  (A sequence of a
    code point from 256 on has no text in the model.) *)
Fixpoint utf8_decode (bs : string) : option string :=
  match bs with
  | EmptyString => Some ""
  | String b rest =>
      let n := Ascii.nat_of_ascii b in
      if Nat.ltb n 128 then option_map (String b) (utf8_decode rest)
      else if Nat.eqb n 194 || Nat.eqb n 195 then
        match rest with
        | String b2 rest' =>
            let m := Ascii.nat_of_ascii b2 in
            if Nat.leb 128 m && Nat.ltb m 192 then
              option_map (String (Ascii.ascii_of_nat ((n - 194) * 64 + m)))
                         (utf8_decode rest')
            else None
        | EmptyString => None
        end
      else None
  end.

(** The process of the examples: it prints the bytes of its input, except
    for the input [bad], on which it fails. *)
Definition example_popen (fs : files) (loc params : string) : raw_result :=
  if String.eqb params "bad" then mkRaw 1%Z "" "Error: bad input"
  else mkRaw 0%Z params "".

(** A process that fails and leaves the byte [FF] on its output. *)
Definition garbled_popen (fs : files) (loc params : string) : raw_result :=
  mkRaw 2%Z (String (Ascii.ascii_of_nat 255) "") "uvspec: fatal".

(** Three configurations: the second makes the solver fail, the output of
    the third has a line of three fields. *)
Definition example_batch_fail_then_short : list configuration :=
  [mkConfiguration (mkConf 0 0) (unlines ["550 1 2 3 4 5 6"]) None;
   mkConfiguration (mkConf 0 0) "bad" None;
   mkConfiguration (mkConf 0 0) (unlines ["551 1 2"]) None].

(** * Properties *)

(** ** Strings *)

Lemma split_line (l r : string) :
  no_newline l = true ->
  split newline (l ++ nl ++ r) = l :: split newline r.
Proof.
  induction l as [|c l IH]; simpl; intros H.
  - reflexivity.
  - apply andb_prop in H as [Hc Hl].
    apply negb_true_iff in Hc. specialize (IH Hl). simpl in IH.
    rewrite Hc, IH. reflexivity.
Qed.

Lemma split_unlines (lines : list string) :
  forallb no_newline lines = true ->
  split newline (unlines lines) = (lines ++ [""])%list.
Proof.
  induction lines as [|l lines IH]; simpl; intros H.
  - reflexivity.
  - apply andb_prop in H as [Hl Hr].
    change (l ++ String newline (unlines lines)) with (l ++ nl ++ unlines lines).
    rewrite (split_line _ _ Hl), (IH Hr). reflexivity.
Qed.

Lemma str_take_app (a b : string) : str_take (String.length a) (a ++ b) = a.
Proof. induction a as [|c a IH]; simpl; [destruct b|]; congruence. Qed.

Lemma str_drop_app (a b : string) : str_drop (String.length a) (a ++ b) = b.
Proof. induction a as [|c a IH]; simpl; auto. Qed.

Lemma str_take_drop (n : nat) (s : string) : str_take n s ++ str_drop n s = s.
Proof.
  revert s; induction n as [|n IH]; intros [|c s]; simpl; try reflexivity.
  now rewrite IH.
Qed.

Lemma string_app_assoc (a b c : string) : (a ++ b) ++ c = a ++ b ++ c.
Proof. induction a as [|x a IH]; simpl; congruence. Qed.

Lemma string_app_length (a b : string) :
  String.length (a ++ b) = String.length a + String.length b.
Proof. induction a as [|x a IH]; simpl; congruence. Qed.

(** [startswith] reads no further than the length of the word. *)
Lemma startswith_app (w a x y : string) :
  String.length w <= String.length a ->
  startswith w (a ++ x) = startswith w (a ++ y).
Proof.
  revert a; induction w as [|c w IH]; intros a H; simpl.
  - reflexivity.
  - destruct a as [|d a]; simpl in *; [lia|].
    rewrite (IH a) by lia. reflexivity.
Qed.

Lemma startswith_self (w x : string) : startswith w (w ++ x) = true.
Proof.
  induction w as [|c w IH]; simpl; [reflexivity|].
  now rewrite Ascii.eqb_refl, IH.
Qed.

Lemma startswith_occurs (w s : string) :
  startswith w s = true -> exists b, s = w ++ b.
Proof.
  revert s; induction w as [|c w IH]; intros s H; simpl in *.
  - now exists s.
  - destruct s as [|d s]; [discriminate|].
    apply andb_prop in H as [Hc Hw].
    apply Ascii.eqb_eq in Hc; subst d.
    destruct (IH _ Hw) as [b ->]. now exists b.
Qed.

Lemma first_at_tail (w : string) (c : ascii) (pre : string) :
  first_at w (String c pre) -> first_at w pre.
Proof. intros H j Hj. apply (H (S j)). simpl; lia. Qed.

Lemma find_from_first (w pre x : string) (i : Z) :
  first_at w pre ->
  find_from w (pre ++ w ++ x) i = (i + Z.of_nat (String.length pre))%Z.
Proof.
  revert i; induction pre as [|c pre IH]; intros i H.
  - simpl. destruct (w ++ x) eqn:E.
    + assert (Hs := startswith_self w x). rewrite E in Hs.
      simpl. rewrite Hs. lia.
    + assert (Hs := startswith_self w x). rewrite E in Hs.
      simpl. rewrite Hs. lia.
  - assert (H0 : startswith w (String c pre ++ w ++ x) = false).
    { rewrite <- string_app_assoc.
      rewrite (startswith_app w (String c pre ++ w) x "").
      - rewrite string_app_assoc.
        specialize (H 0). simpl in H.
        replace (w ++ "") with w by (clear; induction w; simpl; congruence).
        apply H. lia.
      - rewrite string_app_length. lia. }
    simpl find_from. simpl in H0. rewrite H0.
    rewrite (IH (i + 1)%Z (first_at_tail _ _ _ H)).
    simpl String.length. lia.
Qed.

(** The outcome of a search: no occurrence, or the first one. *)
Lemma find_from_spec (w s : string) (i : Z) :
  (find_from w s i = (-1)%Z /\ ~ occurs w s) \/
  (exists pre suf, s = pre ++ w ++ suf /\ first_at w pre /\
     find_from w s i = (i + Z.of_nat (String.length pre))%Z).
Proof.
  revert i; induction s as [|c s IH]; intros i.
  - simpl. destruct (startswith w "") eqn:E.
    + right. destruct (startswith_occurs _ _ E) as [b Hb].
      exists "", b. repeat split; auto.
      * intros j Hj; simpl in Hj; lia.
      * simpl; lia.
    + left. split; [reflexivity|].
      intros (a & b & Hab).
      destruct a; simpl in Hab; [|discriminate].
      rewrite Hab, startswith_self in E. discriminate.
  - simpl. destruct (startswith w (String c s)) eqn:E.
    + right. destruct (startswith_occurs _ _ E) as [b Hb].
      exists "", b. repeat split; auto.
      * intros j Hj; simpl in Hj; lia.
      * simpl; lia.
    + destruct (IH (i + 1)%Z) as [[Hf Hn] | (pre & suf & Hs & Hfirst & Hf)].
      * left. split; [exact Hf|].
        intros (a & b & Hab).
        destruct a as [|d a]; simpl in Hab.
        -- rewrite Hab, startswith_self in E. discriminate.
        -- injection Hab as _ Hs. apply Hn. now exists a, b.
      * right. exists (String c pre), suf. repeat split.
        -- simpl. now rewrite Hs.
        -- intros [|j] Hj.
           ++ simpl str_drop.
              rewrite <- (string_app_assoc) in Hs.
              change (String c pre ++ w) with (String c (pre ++ w)).
              replace (String c (pre ++ w)) with (String c (pre ++ w) ++ "")
                by (generalize (String c (pre ++ w)); clear; induction s; simpl; congruence).
              rewrite (startswith_app w (String c (pre ++ w)) "" suf).
              ** simpl. rewrite <- Hs. exact E.
              ** simpl. rewrite string_app_length. lia.
           ++ simpl. apply Hfirst. simpl in Hj. lia.
        -- rewrite Hf. simpl String.length. lia.
Qed.

Lemma string_app_nil (a : string) : a ++ "" = a.
Proof. induction a as [|c a IH]; simpl; congruence. Qed.

Lemma join_app (l r : list string) : join (l ++ r) = join l ++ join r.
Proof.
  induction l as [|x l IH]; simpl; [reflexivity|].
  now rewrite IH, string_app_assoc.
Qed.

Lemma find_absent (w s : string) : ~ occurs w s -> find w s = (-1)%Z.
Proof.
  intros H. unfold find.
  destruct (find_from_spec w s 0) as [[Hf _] | (pre & suf & Hs & _ & _)].
  - exact Hf.
  - exfalso. apply H. now exists pre, suf.
Qed.

Lemma find_absent_inv (w s : string) : find w s = (-1)%Z -> ~ occurs w s.
Proof.
  unfold find. intros Hf.
  destruct (find_from_spec w s 0) as [[_ Hn] | (pre & suf & _ & _ & Hp)].
  - exact Hn.
  - rewrite Hf in Hp. lia.
Qed.

Lemma occurs_first (w s : string) :
  occurs w s -> exists pre suf, s = pre ++ w ++ suf /\ first_at w pre.
Proof.
  intros H.
  destruct (find_from_spec w s 0) as [[_ Hn] | (pre & suf & Hs & Hfirst & _)].
  - contradiction.
  - now exists pre, suf.
Qed.

(** ** Injection of auxiliary files *)

Lemma add_at_anchor (pre suf var name : string) :
  first_at word pre ->
  add_to_main_input_str (pre ++ word ++ suf) var name
  = pre ++ word ++ (nl ++ var ++ " " ++ name) ++ suf.
Proof.
  intros H. unfold add_to_main_input_str, find.
  rewrite (find_from_first word pre suf 0 H).
  replace (Z.to_nat (0 + Z.of_nat (String.length pre)
                     + Z.of_nat (String.length word)))
    with (String.length (pre ++ word))
    by (rewrite string_app_length; lia).
  rewrite <- (string_app_assoc pre word suf).
  rewrite str_take_app, str_drop_app.
  now rewrite !string_app_assoc.
Qed.

Lemma write_temp_files_at_anchor (temp_name : nat -> string)
    (pre : string) (temp_files : list (string * string)) :
  first_at word pre ->
  forall n suf fs,
    write_temp_files temp_name n temp_files (pre ++ word ++ suf) fs
    = (n + List.length temp_files,
       pre ++ word ++ join (rev (directives temp_name n temp_files)) ++ suf,
       (rev (stored temp_name n temp_files) ++ fs)%list).
Proof.
  intros H. induction temp_files as [|[key content] rest IH]; intros n suf fs.
  - simpl. now rewrite Nat.add_0_r.
  - cbn [write_temp_files directives stored rev List.length].
    rewrite (add_at_anchor pre suf key (temp_name n) H).
    rewrite IH. rewrite join_app. cbn [join].
    rewrite string_app_nil, !string_app_assoc, <- app_assoc.
    simpl app. replace (S n + List.length rest) with (n + S (List.length rest)) by lia.
    reflexivity.
Qed.

(** C9: for an input text in which the anchor token occurs, each injection
    inserts the directive line (a newline, the name, a space, the path of
    the temporary file) right after the first occurrence of the token and
    leaves the text before and after it as it was; after the whole mapping
    was injected in its order, the directive lines stand after the anchor
    in the reverse of that order. *)
Theorem C9_injection_after_first_anchor (temp_name : nat -> string)
    (main_str : string) :
  occurs word main_str ->
  exists pre suf,
    main_str = pre ++ word ++ suf /\ first_at word pre /\
    (forall var name,
       add_to_main_input_str main_str var name
       = pre ++ word ++ (nl ++ var ++ " " ++ name) ++ suf) /\
    (forall n temp_files fs,
       write_temp_files temp_name n temp_files main_str fs
       = (n + List.length temp_files,
          pre ++ word ++ join (rev (directives temp_name n temp_files)) ++ suf,
          (rev (stored temp_name n temp_files) ++ fs)%list)).
Proof.
  intros H. destruct (occurs_first _ _ H) as (pre & suf & -> & Hfirst).
  exists pre, suf. repeat split.
  - exact Hfirst.
  - intros var name. now apply add_at_anchor.
  - intros n temp_files fs. now apply write_temp_files_at_anchor.
Qed.

Lemma C9_witness :
  occurs word ("rte_solver disort" ++ nl ++ "verbose") /\
  exists pre suf,
    "rte_solver disort" ++ nl ++ "verbose" = pre ++ word ++ suf /\
    first_at word pre /\
    (forall var name,
       add_to_main_input_str ("rte_solver disort" ++ nl ++ "verbose") var name
       = pre ++ word ++ (nl ++ var ++ " " ++ name) ++ suf) /\
    (forall n temp_files fs,
       write_temp_files example_temp_name n temp_files
         ("rte_solver disort" ++ nl ++ "verbose") fs
       = (n + List.length temp_files,
          pre ++ word
            ++ join (rev (directives example_temp_name n temp_files)) ++ suf,
          (rev (stored example_temp_name n temp_files) ++ fs)%list)).
Proof.
  assert (H : occurs word ("rte_solver disort" ++ nl ++ "verbose")).
  { exists "rte_solver ", (nl ++ "verbose"). reflexivity. }
  split; [exact H|].
  exact (C9_injection_after_first_anchor example_temp_name _ H).
Defined.

(** C10: for a main input string in which the anchor token does not occur,
    the search gives -1, no error is signalled, and the directive line is
    spliced in after the first five characters of the string. *)
Theorem C10_no_anchor_splice_at_5 (main_str var name : string) :
  ~ occurs word main_str ->
  find word main_str = (-1)%Z /\
  add_to_main_input_str main_str var name
  = str_take 5 main_str ++ (nl ++ var ++ " " ++ name) ++ str_drop 5 main_str.
Proof.
  intros H. pose proof (find_absent _ _ H) as Hf. split; [exact Hf|].
  unfold add_to_main_input_str. rewrite Hf. reflexivity.
Qed.

Lemma C10_witness :
  ~ occurs word "wavelength 550" /\
  find word "wavelength 550" = (-1)%Z /\
  add_to_main_input_str "wavelength 550" "aerosol_file" "/tmp/d/f0"
  = "wavel" ++ (nl ++ "aerosol_file /tmp/d/f0") ++ "ength 550".
Proof.
  assert (H : ~ occurs word "wavelength 550")
    by (apply find_absent_inv; reflexivity).
  split; [exact H|].
  exact (C10_no_anchor_splice_at_5 "wavelength 550" "aerosol_file" "/tmp/d/f0" H).
Defined.

(** ** Lists *)

Lemma map_nth_seq {A B : Type} (g : A -> B) (d : A) (l : list A) :
  map g l = map (fun j => g (nth j l d)) (seq 0 (List.length l)).
Proof.
  induction l as [|a l IH]; simpl; [reflexivity|].
  rewrite <- seq_shift, map_map. now rewrite IH at 1.
Qed.

Lemma mapM_ok {A B : Type} (f : A -> result B) (h : A -> B) (l : list A) :
  (forall a, In a l -> f a = Ok (h a)) -> mapM f l = Ok (map h l).
Proof.
  induction l as [|a l IH]; simpl; intros H; [reflexivity|].
  rewrite (H a) by now left. simpl.
  rewrite IH by (intros; apply H; now right). reflexivity.
Qed.

Lemma zip_rows_map {A : Type} (f g : nat -> list A) (js : list nat) :
  zip_rows (map f js) (map g js) = map (fun j => (f j ++ g j)%list) js.
Proof. induction js as [|j js IH]; simpl; congruence. Qed.

Lemma slice_concat {A : Type} (k : nat) (blocks : list (list A))
    (rest : list A) :
  Forall (fun b => List.length b = k) blocks ->
  forall ind b, nth_error blocks ind = Some b ->
    slice (ind * k) ((ind + 1) * k) (List.concat blocks ++ rest)%list = b.
Proof.
  unfold slice. induction 1 as [|b0 blocks Hb0 _ IH]; intros ind b Hn.
  - destruct ind; discriminate.
  - destruct ind as [|ind]; simpl in Hn.
    + injection Hn as <-. simpl. rewrite Nat.add_0_r, <- Hb0.
      rewrite <- app_assoc, firstn_app, firstn_all, Nat.sub_diag.
      simpl. now rewrite app_nil_r.
    + specialize (IH ind b Hn). simpl List.concat.
      rewrite <- app_assoc.
      replace ((S ind + 1) * k) with (List.length b0 + (ind + 1) * k) by (simpl; lia).
      rewrite firstn_app_2.
      replace (S ind * k) with (List.length b0 + ind * k) by (simpl; lia).
      rewrite skipn_app, skipn_all2 by lia.
      replace (List.length b0 + ind * k - List.length b0) with (ind * k) by lia.
      exact IH.
Qed.

Lemma concat_length_blocks {A : Type} (k : nat) (blocks : list (list A)) :
  Forall (fun b => List.length b = k) blocks ->
  List.length (List.concat blocks) = List.length blocks * k.
Proof.
  induction 1 as [|b blocks Hb _ IH]; simpl; [reflexivity|].
  rewrite length_app, IH, Hb. reflexivity.
Qed.

(** ** The block parsers *)

Section ParserProps.

Variable F : Type.
Variable float_of : string -> F.

Lemma has_fields_tokens (n : nat) (line : string) :
  has_fields (S (S n)) line = true ->
  exists t0 t1 rest, tokens line = t0 :: t1 :: rest.
Proof.
  unfold has_fields. intros H. apply Nat.leb_le in H.
  destruct (tokens line) as [|t0 [|t1 rest]]; simpl in H; try lia.
  now exists t0, t1, rest.
Qed.

Lemma has_fields_nonempty (n : nat) (line : string) :
  has_fields (S n) line = true -> String.eqb line "" = false.
Proof.
  intros H. destruct line; [discriminate H|reflexivity].
Qed.

Lemma genfromtxt_fields (line : string) :
  has_fields 2 line = true ->
  genfromtxt float_of line = Nd1 (map float_of (tokens line)).
Proof.
  intros H. destruct (has_fields_tokens 0 line H) as (t0 & t1 & rest & E).
  unfold genfromtxt. now rewrite E.
Qed.

Lemma getitem_basic (line : string) (j : nat) :
  has_fields 7 line = true -> j < 7 ->
  getitem (genfromtxt float_of line) j = Ok (field F float_of j line).
Proof.
  intros H Hj.
  rewrite genfromtxt_fields
    by (unfold has_fields in *; apply Nat.leb_le in H; apply Nat.leb_le; lia).
  unfold getitem, field. unfold has_fields in H. apply Nat.leb_le in H.
  rewrite nth_error_map.
  destruct (nth_error (tokens line) j) eqn:E.
  - simpl. now rewrite (nth_error_nth _ _ _ E).
  - apply nth_error_None in E. lia.
Qed.

Lemma row_zenith (line : string) :
  has_fields 2 line = true ->
  getitem2 (expand_dims0 (genfromtxt float_of line)) 0
  = Ok (Nd0 (zenith F float_of line)).
Proof.
  intros H. rewrite (genfromtxt_fields line H).
  destruct (has_fields_tokens 0 line H) as (t0 & t1 & rest & E).
  unfold zenith, field. rewrite E. reflexivity.
Qed.

Lemma row_intensity (line : string) :
  has_fields 2 line = true ->
  getitem2 (expand_dims0 (genfromtxt float_of line)) 1
  = Ok (Nd0 (intensity F float_of line)).
Proof.
  intros H. rewrite (genfromtxt_fields line H).
  destruct (has_fields_tokens 0 line H) as (t0 & t1 & rest & E).
  unfold intensity, field. rewrite E. reflexivity.
Qed.

Lemma row_radiances (line : string) :
  has_fields 2 line = true ->
  getslice2 (expand_dims0 (genfromtxt float_of line)) 2
  = Ok (Nd1 (radiances F float_of line)).
Proof.
  intros H. rewrite (genfromtxt_fields line H). reflexivity.
Qed.

Lemma flatten_np_seq (l : list F) : flatten (np_seq F l) = l.
Proof. destruct l as [|x [|y l]]; reflexivity. Qed.

Lemma np_append_seq (l : list F) (x : F) :
  l <> [] -> np_append (np_seq F l) (Nd0 x) = np_seq F (l ++ [x]).
Proof.
  intros H. unfold np_append. rewrite flatten_np_seq. simpl.
  destruct l as [|a [|b l]]; [contradiction| |]; reflexivity.
Qed.

(** The loop of format 1 after its first line, on lines that all have
    their two fields. *)
Lemma format_2_loop_tail (ls : list string) :
  forallb (has_fields 2) ls = true ->
  forall i az ai, az <> [] -> ai <> [] ->
    format_2_loop float_of (S i) ls (Some (np_seq F az)) (Some (np_seq F ai))
    = Ok (Some (np_seq F (az ++ map (zenith F float_of) ls)),
          Some (np_seq F (ai ++ map (intensity F float_of) ls))).
Proof.
  induction ls as [|l ls IH]; intros H i az ai Hz Hi.
  - simpl. now rewrite !app_nil_r.
  - simpl in H. apply andb_prop in H as [Hl Hls].
    cbn [format_2_loop]. rewrite (has_fields_nonempty 1 l Hl).
    rewrite (row_zenith l Hl), (row_intensity l Hl). cbn [load bind].
    rewrite !np_append_seq by assumption.
    rewrite (IH Hls) by (now destruct az + destruct ai).
    cbn [map]. now rewrite <- !app_assoc.
Qed.

Lemma format_2_loop_views (v : string) (views : list string) :
  forallb (has_fields 2) (v :: views) = true ->
  format_2_loop float_of 0 (v :: views) None None
  = Ok (Some (np_seq F (map (zenith F float_of) (v :: views))),
        Some (np_seq F (map (intensity F float_of) (v :: views)))).
Proof.
  intros H. simpl in H. apply andb_prop in H as [Hv Hviews].
  cbn [format_2_loop]. rewrite (has_fields_nonempty 1 v Hv).
  rewrite (row_zenith v Hv), (row_intensity v Hv). cbn [bind].
  change (Nd0 (zenith F float_of v)) with (np_seq F [zenith F float_of v]).
  change (Nd0 (intensity F float_of v)) with (np_seq F [intensity F float_of v]).
  rewrite (format_2_loop_tail views Hviews) by discriminate.
  reflexivity.
Qed.

(** An empty line after the first viewing-angle line is passed over: the
    loop goes on as if the line were not there. *)
Lemma format_2_loop_skip (ls : list string) :
  forall i j umu u0u,
    format_2_loop float_of (S i) ls umu u0u
    = format_2_loop float_of (S j) (filter nonempty ls) umu u0u.
Proof.
  induction ls as [|l ls IH]; intros i j umu u0u; [reflexivity|].
  cbn [format_2_loop filter]. unfold nonempty at 1.
  destruct (String.eqb l "") eqn:E; cbn [negb].
  - apply IH.
  - cbn [format_2_loop]. rewrite E.
    destruct (load umu); [|reflexivity]. cbn [bind].
    destruct (getitem2 _ 0); [|reflexivity]. cbn [bind].
    destruct (load u0u); [|reflexivity]. cbn [bind].
    destruct (getitem2 _ 1); [|reflexivity]. cbn [bind].
    apply IH.
Qed.

Lemma format_3_loop_skip (ls : list string) :
  forall i j st,
    format_3_loop float_of (S i) ls st
    = format_3_loop float_of (S j) (filter nonempty ls) st.
Proof.
  induction ls as [|l ls IH]; intros i j st; [reflexivity|].
  cbn [format_3_loop filter]. unfold nonempty at 1.
  destruct (String.eqb l "") eqn:E; cbn [negb].
  - apply IH.
  - cbn [format_3_loop]. rewrite E.
    destruct (load (l_umu st)); [|reflexivity]. cbn [bind].
    destruct (getitem2 _ 0); [|reflexivity]. cbn [bind].
    destruct (load (l_u0u st)); [|reflexivity]. cbn [bind].
    destruct (getitem2 _ 1); [|reflexivity]. cbn [bind].
    destruct (load (l_uu st)); [|reflexivity]. cbn [bind].
    destruct (getslice2 _ 2); [|reflexivity]. cbn [bind].
    destruct (expand_dims1 _); [|reflexivity]. cbn [bind].
    destruct (np_append_axis1 _ _); [|reflexivity]. cbn [bind].
    apply IH.
Qed.

End ParserProps.

Section TableProps.

Variable F : Type.
Variable float_of : string -> F.

Lemma radiances_fields (m : nat) (line : string) :
  List.length (tokens line) = 2 + m ->
  radiances F float_of line
  = map (fun j => field F float_of (2 + j) line) (seq 0 m).
Proof.
  unfold radiances, field. intros H.
  destruct (tokens line) as [|t0 [|t1 rest]]; simpl in H; try lia.
  injection H as H. subst m. simpl skipn.
  rewrite (map_nth_seq float_of "" rest).
  apply map_ext. intros j. reflexivity.
Qed.

Lemma radiance_rows_snoc (m : nat) (acc : list string) (line : string) :
  zip_rows (radiance_rows F float_of m acc)
           (map (fun x => [x]) (map (fun j => field F float_of (2 + j) line) (seq 0 m)))
  = radiance_rows F float_of m (acc ++ [line]).
Proof.
  unfold radiance_rows. rewrite map_map, zip_rows_map.
  apply map_ext. intros j. now rewrite map_app.
Qed.

Lemma fields_has_2 (m : nat) (line : string) :
  List.length (tokens line) = 2 + m -> has_fields 2 line = true.
Proof. intros H. unfold has_fields. apply Nat.leb_le. lia. Qed.

(** The loop of format 2 after its first line: [acc] are the lines read so
    far, all lines have [2 + m] fields. *)
Lemma format_3_loop_tail (m : nat) (ls : list string) :
  Forall (fun l => List.length (tokens l) = 2 + m) ls ->
  forall i acc, acc <> [] ->
    format_3_loop float_of (S i) ls
      (mkLocals3 (Some (np_seq F (map (zenith F float_of) acc)))
                 (Some (np_seq F (map (intensity F float_of) acc)))
                 (Some (Nd2 m (List.length acc) (radiance_rows F float_of m acc))))
    = Ok (mkLocals3
            (Some (np_seq F (map (zenith F float_of) (acc ++ ls))))
            (Some (np_seq F (map (intensity F float_of) (acc ++ ls))))
            (Some (Nd2 m (List.length (acc ++ ls))
                     (radiance_rows F float_of m (acc ++ ls))))).
Proof.
  induction 1 as [|l ls Hl _ IH]; intros i acc Hacc.
  - simpl. now rewrite !app_nil_r.
  - pose proof (fields_has_2 m l Hl) as H2.
    cbn [format_3_loop]. rewrite (has_fields_nonempty 1 l H2).
    cbn [l_umu l_u0u l_uu load bind].
    rewrite (row_zenith F float_of l H2), (row_intensity F float_of l H2),
      (row_radiances F float_of l H2). cbn [bind expand_dims1].
    rewrite (radiances_fields m l Hl).
    rewrite !length_map, length_seq. cbn [np_append_axis1].
    rewrite Nat.eqb_refl. cbn [bind].
    rewrite radiance_rows_snoc.
    rewrite !np_append_seq by (destruct acc; [contradiction|discriminate]).
    rewrite <- !map_last.
    replace (List.length acc + 1) with (List.length (acc ++ [l]))
      by (rewrite length_app; reflexivity).
    rewrite (IH (S i) (acc ++ [l])%list) by (now destruct acc).
    now rewrite <- !app_assoc.
Qed.

Lemma format_3_loop_views (m : nat) (v : string) (views : list string) :
  Forall (fun l => List.length (tokens l) = 2 + m) (v :: views) ->
  format_3_loop float_of 0 (v :: views) (mkLocals3 None None None)
  = Ok (mkLocals3
          (Some (np_seq F (map (zenith F float_of) (v :: views))))
          (Some (np_seq F (map (intensity F float_of) (v :: views))))
          (Some (Nd2 m (List.length (v :: views))
                   (radiance_rows F float_of m (v :: views))))).
Proof.
  intros H. inversion H as [|? ? Hv Hviews]; subst.
  pose proof (fields_has_2 m v Hv) as H2.
  cbn [format_3_loop]. rewrite (has_fields_nonempty 1 v H2).
  rewrite (row_zenith F float_of v H2), (row_intensity F float_of v H2),
    (row_radiances F float_of v H2). cbn [bind expand_dims1].
  rewrite (radiances_fields m v Hv).
  rewrite !length_map, length_seq.
  pose proof (radiance_rows_snoc m [] v) as Hs.
  unfold radiance_rows at 1 in Hs. cbn [map app] in Hs.
  assert (Hcol : map (fun x : F => [x])
                   (map (fun j => field F float_of (2 + j) v) (seq 0 m))
                 = radiance_rows F float_of m [v]).
  { unfold radiance_rows. rewrite map_map. reflexivity. }
  rewrite Hcol.
  exact (format_3_loop_tail m views Hviews 0 [v] ltac:(discriminate)).
Qed.

End TableProps.

(** ** Blocks and whole outputs *)

Lemma slice_single {A : Type} (i : nat) (l : list A) (b : A) :
  slice i (i + 1) l = [b] -> nth_error l i = Some b.
Proof.
  unfold slice. revert l; induction i as [|i IH]; intros l H.
  - destruct l as [|a l]; simpl in H; [discriminate|].
    simpl. congruence.
  - destruct l as [|a l]; simpl in H; [discriminate|].
    simpl. now apply IH.
Qed.

Lemma lines_per_case_0 (conf : parser_conf) :
  (output_format conf =? 0)%Z = true -> lines_per_case conf = 1%Z.
Proof. unfold lines_per_case. now intros ->. Qed.

Lemma lines_per_case_1 (conf : parser_conf) :
  (output_format conf =? 0)%Z = false ->
  (output_format conf =? 1)%Z = true ->
  lines_per_case conf = (1 + umu_length conf)%Z.
Proof. unfold lines_per_case. now intros -> ->. Qed.

Lemma lines_per_case_2 (conf : parser_conf) :
  (output_format conf =? 0)%Z = false ->
  (output_format conf =? 1)%Z = false ->
  lines_per_case conf = (2 + umu_length conf)%Z.
Proof. unfold lines_per_case. now intros -> ->. Qed.

Lemma loop_row_count_ok (conf : parser_conf) (n : Z) :
  (0 <= output_format conf <= 2)%Z ->
  lines_per_case conf <> 0%Z ->
  loop_row_count conf n = Ok (n, lines_per_case conf).
Proof.
  unfold loop_row_count, lines_per_case. intros Hf Hk.
  destruct (output_format conf =? 0)%Z eqn:E0; [reflexivity|].
  destruct (output_format conf =? 1)%Z eqn:E1.
  - apply Z.eqb_neq in Hk. now rewrite Hk.
  - destruct (output_format conf =? 2)%Z eqn:E2.
    + apply Z.eqb_neq in Hk. now rewrite Hk.
    + apply Z.eqb_neq in E0, E1, E2. lia.
Qed.

Section BlockProps.

Variable F : Type.
Variable float_of : string -> F.

Lemma output_format_2_parser_ok (b v : string) (views : list string) :
  forallb (has_fields 2) (v :: views) = true ->
  output_format_2_parser float_of (b :: v :: views)
  = Ok (genfromtxt float_of b,
        Some (np_seq F (map (zenith F float_of) (v :: views))), None,
        Some (np_seq F (map (intensity F float_of) (v :: views))), None).
Proof.
  intros H. unfold output_format_2_parser.
  rewrite (format_2_loop_views F float_of v views H). reflexivity.
Qed.

Lemma output_format_3_parser_ok (m : nat) (b phi v : string)
    (views : list string) :
  Forall (fun l => List.length (tokens l) = 2 + m) (v :: views) ->
  output_format_3_parser float_of (b :: phi :: v :: views)
  = Ok (genfromtxt float_of b,
        Some (np_seq F (map (zenith F float_of) (v :: views))),
        Some (genfromtxt float_of phi),
        Some (np_seq F (map (intensity F float_of) (v :: views))),
        Some (Nd2 m (List.length (v :: views))
                (radiance_rows F float_of m (v :: views)))).
Proof.
  intros H. unfold output_format_3_parser.
  rewrite (format_3_loop_views F float_of m v views H). reflexivity.
Qed.

Lemma basic_fields (b : string) (umu phi u0u uu : pyval F) (error : string) :
  has_fields 7 b = true ->
  (f0 <- getitem (genfromtxt float_of b) 0 ;;
   f1 <- getitem (genfromtxt float_of b) 1 ;;
   f2 <- getitem (genfromtxt float_of b) 2 ;;
   f3 <- getitem (genfromtxt float_of b) 3 ;;
   f4 <- getitem (genfromtxt float_of b) 4 ;;
   f5 <- getitem (genfromtxt float_of b) 5 ;;
   f6 <- getitem (genfromtxt float_of b) 6 ;;
   Ok (mkOutput f0 f1 f2 f3 f4 f5 f6 umu phi u0u uu error))
  = Ok (mkOutput (field F float_of 0 b) (field F float_of 1 b)
          (field F float_of 2 b) (field F float_of 3 b)
          (field F float_of 4 b) (field F float_of 5 b)
          (field F float_of 6 b) umu phi u0u uu error).
Proof.
  intros H.
  rewrite !(getitem_basic F float_of b _ H) by lia. reflexivity.
Qed.

(** A well-formed block is decoded into its record. *)
Lemma parse_case_block (conf : parser_conf) (vals : list string)
    (error : string) (ind : nat) :
  well_formed_block conf (block conf vals ind) = true ->
  parse_case float_of conf vals error ind
  = Ok (block_record F float_of conf error (block conf vals ind)).
Proof.
  unfold well_formed_block, parse_case, parse_rows, block_record, block.
  intros H. apply andb_prop in H as [_ H].
  destruct (output_format conf =? 0)%Z eqn:E0.
  - rewrite (lines_per_case_0 conf E0) in *.
    replace (Z.to_nat (Z.of_nat ind * 1)) with ind in * by lia.
    replace (Z.to_nat ((Z.of_nat ind + 1) * 1)) with (ind + 1) in * by lia.
    destruct (slice ind (ind + 1) vals) as [|b [|? ?]] eqn:Es;
      try discriminate H.
    rewrite (slice_single _ _ _ Es). cbn [output_format_1_parser bind hd].
    now apply basic_fields.
  - destruct (output_format conf =? 1)%Z eqn:E1.
    + rewrite (lines_per_case_1 conf E0 E1) in *.
      destruct (slice _ _ vals) as [|b [|v views]]; try discriminate H.
      apply andb_prop in H as [Hb Hv].
      rewrite (output_format_2_parser_ok b v views Hv). cbn [bind hd tl].
      now apply basic_fields.
    + rewrite (lines_per_case_2 conf E0 E1) in *.
      destruct (output_format conf =? 2)%Z; [|discriminate H].
      destruct (slice _ _ vals) as [|b [|phi [|v views]]]; try discriminate H.
      apply andb_prop in H as [H Hviews]. apply andb_prop in H as [Hb Hv].
      unfold has_fields in Hv. apply Nat.leb_le in Hv.
      assert (Hall : Forall (fun l => List.length (tokens l)
                                      = 2 + (List.length (tokens v) - 2))
                            (v :: views)).
      { constructor; [lia|]. apply Forall_forall. intros l Hl.
        rewrite forallb_forall in Hviews. specialize (Hviews l Hl).
        apply Nat.eqb_eq in Hviews. lia. }
      rewrite (output_format_3_parser_ok _ b phi v views Hall).
      cbn [bind hd tl]. now apply basic_fields.
Qed.

(** The whole output of a run made of well-formed blocks. *)
Lemma parse_output_blocks (conf : parser_conf) (blocks : list (list string))
    (error : string) :
  (0 <= output_format conf <= 2)%Z ->
  (0 < lines_per_case conf)%Z ->
  forallb (well_formed_block conf) blocks = true ->
  forallb no_newline (List.concat blocks) = true ->
  parse_output float_of (mkProc 0 (unlines (List.concat blocks)) error) conf
  = ([], Ok (RetOutput (map (block_record F float_of conf error) blocks))).
Proof.
  intros Hf Hk Hwf Hnl. unfold parse_output. cbn [returncode stdout stderr].
  simpl negb. cbv iota.
  rewrite (split_unlines _ Hnl).
  set (k := Z.to_nat (lines_per_case conf)).
  assert (Hlen : Forall (fun b : list string => List.length b = k) blocks).
  { apply Forall_forall. intros b Hb.
    rewrite forallb_forall in Hwf. specialize (Hwf b Hb).
    unfold well_formed_block in Hwf. apply andb_prop in Hwf as [Hl _].
    apply Z.eqb_eq in Hl. subst k. lia. }
  rewrite length_app, (concat_length_blocks k blocks Hlen).
  rewrite loop_row_count_ok by (assumption || lia).
  assert (Hn : (Z.of_nat (List.length blocks * k + List.length [""]) - 1
                = Z.of_nat (List.length blocks) * lines_per_case conf)%Z).
  { simpl List.length. subst k. nia. }
  rewrite Hn.
  unfold row_count_warning, is_integer, int_of. cbn [fst snd].
  rewrite Z.rem_mul by lia. simpl.
  rewrite Z.quot_mul by lia. rewrite Nat2Z.id.
  rewrite (mapM_ok _ (fun ind => block_record F float_of conf error
                                   (nth ind blocks []))).
  - cbn [bind]. rewrite <- (map_nth_seq _ [] blocks). reflexivity.
  - intros ind Hin. apply in_seq in Hin.
    destruct (nth_error blocks ind) as [b|] eqn:Eb;
      [|apply nth_error_None in Eb; lia].
    assert (Hblock : block conf (List.concat blocks ++ [""])%list ind = b).
    { unfold block.
      replace (Z.to_nat (Z.of_nat ind * lines_per_case conf)) with (ind * k)
        by (subst k; nia).
      replace (Z.to_nat ((Z.of_nat ind + 1) * lines_per_case conf))
        with ((ind + 1) * k) by (subst k; nia).
      now apply slice_concat. }
    rewrite (nth_error_nth _ _ _ Eb).
    rewrite <- Hblock at 1. apply parse_case_block. rewrite Hblock.
    rewrite forallb_forall in Hwf. apply Hwf.
    now apply nth_error_In with ind.
Qed.

End BlockProps.

(** ** The parser on well-formed output *)

Section ParserClaims.

Variable F : Type.
Variable float_of : string -> F.
Variable uvspec : files -> string -> string -> proc_result.

Lemma concat_singletons {A : Type} (l : list A) :
  List.concat (map (fun x => [x]) l) = l.
Proof. induction l as [|a l IH]; simpl; congruence. Qed.

(** C3: for format 0, when the solver succeeds and prints N lines of at
    least seven fields each, every line ended by a newline,
    [run_libradtran] prints no warning and returns exactly N records, the
    record of each line in the order of the lines, with [umu], [phi],
    [u0u] and [uu] all [None]. *)
Theorem C3_format_0_records (conf : parser_conf) (lines : list string)
    (fs : files) (loc params error : string) :
  output_format conf = 0%Z ->
  forallb (has_fields 7) lines = true ->
  forallb no_newline lines = true ->
  uvspec fs loc params = mkProc 0 (unlines lines) error ->
  run_libradtran float_of uvspec fs loc params conf
  = ([], Ok (RetOutput (map (basic_record F float_of error) lines)))
  /\ List.length (map (basic_record F float_of error) lines)
     = List.length lines
  /\ Forall (fun r => o_umu r = None /\ o_phi r = None
                      /\ o_u0u r = None /\ o_uu r = None)
            (map (basic_record F float_of error) lines).
Proof.
  intros Hfmt Hfields Hnl Hrun. split; [|split].
  - unfold run_libradtran. rewrite Hrun.
    pose proof (parse_output_blocks F float_of conf
                  (map (fun l => [l]) lines) error) as H.
    rewrite concat_singletons in H. rewrite H.
    + rewrite map_map. do 3 f_equal. apply map_ext. intros l.
      unfold block_record, basic_record. rewrite Hfmt. reflexivity.
    + rewrite Hfmt. lia.
    + unfold lines_per_case. rewrite Hfmt. reflexivity.
    + rewrite forallb_forall. intros b Hb.
      apply in_map_iff in Hb as (l & <- & Hl).
      rewrite forallb_forall in Hfields.
      unfold well_formed_block, lines_per_case. rewrite Hfmt. simpl.
      now apply Hfields.
    + exact Hnl.
  - apply length_map.
  - apply Forall_forall. intros r Hr.
    apply in_map_iff in Hr as (l & <- & _). now repeat split.
Qed.

(** C4: for format 1 with three viewing angles, when the solver succeeds
    and prints one block of four lines (a basic line of at least seven
    fields, then three lines of at least two fields each),
    [run_libradtran] returns one record whose [umu] holds the first fields
    and whose [u0u] holds the second fields of the three lines, each an
    array of length 3 in the order of the lines. *)
Theorem C4_format_1_three_angles (conf : parser_conf) (b v1 v2 v3 : string)
    (fs : files) (loc params error : string) :
  output_format conf = 1%Z ->
  umu_length conf = 3%Z ->
  has_fields 7 b = true ->
  forallb (has_fields 2) [v1; v2; v3] = true ->
  forallb no_newline [b; v1; v2; v3] = true ->
  uvspec fs loc params = mkProc 0 (unlines [b; v1; v2; v3]) error ->
  run_libradtran float_of uvspec fs loc params conf
  = ([], Ok (RetOutput
        [mkOutput (field F float_of 0 b) (field F float_of 1 b)
           (field F float_of 2 b) (field F float_of 3 b)
           (field F float_of 4 b) (field F float_of 5 b)
           (field F float_of 6 b)
           (Some (Nd1 [zenith F float_of v1; zenith F float_of v2;
                       zenith F float_of v3]))
           None
           (Some (Nd1 [intensity F float_of v1; intensity F float_of v2;
                       intensity F float_of v3]))
           None error])).
Proof.
  intros Hfmt Humu Hb Hv Hnl Hrun.
  unfold run_libradtran. rewrite Hrun.
  pose proof (parse_output_blocks F float_of conf [[b; v1; v2; v3]] error) as H.
  cbn [List.concat app] in H. rewrite H.
  - unfold block_record. rewrite Hfmt. reflexivity.
  - rewrite Hfmt. lia.
  - unfold lines_per_case. rewrite Hfmt, Humu. reflexivity.
  - unfold well_formed_block, lines_per_case. rewrite Hfmt, Humu.
    change (forallb (has_fields 2) [v1; v2; v3]) with
      (has_fields 2 v1 && (has_fields 2 v2 && (has_fields 2 v3 && true))) in Hv.
    cbn -[has_fields]. rewrite Hb, Hv. reflexivity.
  - exact Hnl.
Qed.

(** C5: in each of the three formats, when the solver succeeds and prints
    well-formed blocks, [run_libradtran] returns one record per block, in
    order, and the first line of the block, which has at least seven
    fields, gives the record its fields 0 to 6 as [lambda], [edir], [edn],
    [eup], [uavgdir], [uavgdn] and [uavup]. *)
Theorem C5_basic_line_columns (conf : parser_conf)
    (blocks : list (list string)) (fs : files) (loc params error : string) :
  (0 <= output_format conf <= 2)%Z ->
  (0 < lines_per_case conf)%Z ->
  forallb (well_formed_block conf) blocks = true ->
  forallb no_newline (List.concat blocks) = true ->
  uvspec fs loc params = mkProc 0 (unlines (List.concat blocks)) error ->
  exists output,
    run_libradtran float_of uvspec fs loc params conf
    = ([], Ok (RetOutput output))
    /\ List.length output = List.length blocks
    /\ forall i rows, nth_error blocks i = Some rows ->
       exists r, nth_error output i = Some r
         /\ has_fields 7 (hd "" rows) = true
         /\ o_lambda r = field F float_of 0 (hd "" rows)
         /\ o_edir r = field F float_of 1 (hd "" rows)
         /\ o_edn r = field F float_of 2 (hd "" rows)
         /\ o_eup r = field F float_of 3 (hd "" rows)
         /\ o_uavgdir r = field F float_of 4 (hd "" rows)
         /\ o_uavgdn r = field F float_of 5 (hd "" rows)
         /\ o_uavup r = field F float_of 6 (hd "" rows).
Proof.
  intros Hf Hk Hwf Hnl Hrun.
  exists (map (block_record F float_of conf error) blocks).
  split; [|split].
  - unfold run_libradtran. rewrite Hrun.
    now apply parse_output_blocks.
  - apply length_map.
  - intros i rows Hi.
    exists (block_record F float_of conf error rows). split.
    + now rewrite nth_error_map, Hi.
    + split.
      * rewrite forallb_forall in Hwf.
        specialize (Hwf rows (nth_error_In _ _ Hi)).
        unfold well_formed_block in Hwf. apply andb_prop in Hwf as [_ Hwf].
        destruct (output_format conf =? 0)%Z.
        { destruct rows as [|b [|? ?]]; try discriminate Hwf. exact Hwf. }
        destruct (output_format conf =? 1)%Z.
        { destruct rows as [|b [|v views]]; try discriminate Hwf.
          now apply andb_prop in Hwf as [Hb _]. }
        destruct (output_format conf =? 2)%Z; [|discriminate Hwf].
        destruct rows as [|b [|phi [|v views]]]; try discriminate Hwf.
        apply andb_prop in Hwf as [Hwf _].
        now apply andb_prop in Hwf as [Hb _].
      * unfold block_record.
        destruct (output_format conf =? 0)%Z; [now repeat split|].
        destruct (output_format conf =? 1)%Z; now repeat split.
Qed.

End ParserClaims.

Lemma C3_witness :
  let lines := ["550 1 2 3 4 5 6"; "551 7 8 9 10 11 12"] in
  run_libradtran literal echo_solver [] "bin" (unlines lines) (mkConf 0 0)
  = ([], Ok (RetOutput (map (basic_record string literal "") lines)))
  /\ List.length (map (basic_record string literal "") lines)
     = List.length lines
  /\ Forall (fun r => o_umu r = None /\ o_phi r = None
                      /\ o_u0u r = None /\ o_uu r = None)
            (map (basic_record string literal "") lines).
Proof.
  exact (C3_format_0_records string literal echo_solver (mkConf 0 0)
           ["550 1 2 3 4 5 6"; "551 7 8 9 10 11 12"] [] "bin"
           (unlines ["550 1 2 3 4 5 6"; "551 7 8 9 10 11 12"]) ""
           eq_refl eq_refl eq_refl eq_refl).
Defined.

Lemma C4_witness :
  run_libradtran literal echo_solver [] "bin"
    (unlines ["550 1 2 3 4 5 6"; "10 0.1"; "20 0.2"; "30 0.3"]) (mkConf 1 3)
  = ([], Ok (RetOutput
        [mkOutput "550" "1" "2" "3" "4" "5" "6"
           (Some (Nd1 ["10"; "20"; "30"])) None
           (Some (Nd1 ["0.1"; "0.2"; "0.3"])) None ""])).
Proof.
  exact (C4_format_1_three_angles string literal echo_solver (mkConf 1 3)
           "550 1 2 3 4 5 6" "10 0.1" "20 0.2" "30 0.3" [] "bin"
           (unlines ["550 1 2 3 4 5 6"; "10 0.1"; "20 0.2"; "30 0.3"]) ""
           eq_refl eq_refl eq_refl eq_refl eq_refl eq_refl).
Defined.

Lemma C5_witness :
  exists output,
    run_libradtran literal echo_solver [] "bin"
      (unlines (List.concat [["550 1 2 3 4 5 6"; "0 90"; "10 0.1 7 8"]]))
      (mkConf 2 1)
    = ([], Ok (RetOutput output))
    /\ List.length output = 1
    /\ forall i rows,
       nth_error [["550 1 2 3 4 5 6"; "0 90"; "10 0.1 7 8"]] i = Some rows ->
       exists r, nth_error output i = Some r
         /\ has_fields 7 (hd "" rows) = true
         /\ o_lambda r = field string literal 0 (hd "" rows)
         /\ o_edir r = field string literal 1 (hd "" rows)
         /\ o_edn r = field string literal 2 (hd "" rows)
         /\ o_eup r = field string literal 3 (hd "" rows)
         /\ o_uavgdir r = field string literal 4 (hd "" rows)
         /\ o_uavgdn r = field string literal 5 (hd "" rows)
         /\ o_uavup r = field string literal 6 (hd "" rows).
Proof.
  refine (C5_basic_line_columns string literal echo_solver (mkConf 2 1)
            [["550 1 2 3 4 5 6"; "0 90"; "10 0.1 7 8"]] [] "bin"
            (unlines (List.concat [["550 1 2 3 4 5 6"; "0 90"; "10 0.1 7 8"]]))
            "" _ _ eq_refl eq_refl eq_refl).
  - simpl; lia.
  - reflexivity.
Defined.

(** ** The radiance table and the empty lines *)

Section BlockClaims.

Variable F : Type.
Variable float_of : string -> F.

(** C2, as the code has it: for format 2, on a block whose viewing-angle
    lines each hold two fields and then one radiance per azimuth angle,
    [uu] is a 2-d array with one row per azimuth angle (in listed order)
    and one column per viewing-angle line (in line order): row [j] holds
    field [2 + j] of each viewing-angle line. *)
Theorem C2_radiance_table_rows_are_azimuths (b phi v : string)
    (views : list string) :
  Forall (fun l => List.length (tokens l) = 2 + List.length (tokens phi))
         (v :: views) ->
  exists rows,
    output_format_3_parser float_of (b :: phi :: v :: views)
    = Ok (genfromtxt float_of b,
          Some (np_seq F (map (zenith F float_of) (v :: views))),
          Some (genfromtxt float_of phi),
          Some (np_seq F (map (intensity F float_of) (v :: views))),
          Some (Nd2 (List.length (tokens phi)) (List.length (v :: views)) rows))
    /\ List.length rows = List.length (tokens phi)
    /\ forall j, j < List.length (tokens phi) ->
         nth_error rows j
         = Some (map (field F float_of (2 + j)) (v :: views)).
Proof.
  intros H.
  exists (radiance_rows F float_of (List.length (tokens phi)) (v :: views)).
  split; [|split].
  - now apply output_format_3_parser_ok.
  - unfold radiance_rows. now rewrite length_map, length_seq.
  - intros j Hj. unfold radiance_rows.
    rewrite nth_error_map, nth_error_nth' with (d := 0)
      by now rewrite length_seq.
    rewrite seq_nth by assumption. reflexivity.
Qed.

(** C6, as the code has it: for formats 1 and 2, when the first
    viewing-angle line of a block is not empty, the empty lines after it
    are passed over, each parser giving what it gives on the block without
    them; the lines that are left, when they have their fields, are decoded
    in their order. *)
Theorem C6_empty_lines_skipped (b phi v : string) (rest : list string) :
  nonempty v = true ->
  output_format_2_parser float_of (b :: v :: rest)
  = output_format_2_parser float_of (b :: v :: filter nonempty rest)
  /\ output_format_3_parser float_of (b :: phi :: v :: rest)
     = output_format_3_parser float_of (b :: phi :: v :: filter nonempty rest)
  /\ (forallb (has_fields 2) (v :: filter nonempty rest) = true ->
      output_format_2_parser float_of (b :: v :: rest)
      = Ok (genfromtxt float_of b,
            Some (np_seq F (map (zenith F float_of)
                              (v :: filter nonempty rest))), None,
            Some (np_seq F (map (intensity F float_of)
                              (v :: filter nonempty rest))), None)).
Proof.
  intros Hv. unfold nonempty in Hv. apply negb_true_iff in Hv.
  assert (H2 : output_format_2_parser float_of (b :: v :: rest)
               = output_format_2_parser float_of
                   (b :: v :: filter nonempty rest)).
  { unfold output_format_2_parser. cbn [format_2_loop]. rewrite Hv.
    destruct (getitem2 _ 0); [|reflexivity]. cbn [bind].
    destruct (getitem2 _ 1); [|reflexivity]. cbn [bind].
    now rewrite (format_2_loop_skip F float_of rest 0 0). }
  split; [exact H2|split].
  - unfold output_format_3_parser. cbn [format_3_loop]. rewrite Hv.
    destruct (getitem2 _ 0); [|reflexivity]. cbn [bind].
    destruct (getitem2 _ 1); [|reflexivity]. cbn [bind].
    destruct (getslice2 _ 2); [|reflexivity]. cbn [bind].
    destruct (expand_dims1 _); [|reflexivity]. cbn [bind].
    now rewrite (format_3_loop_skip F float_of rest 0 0).
  - intros Hwf. rewrite H2. now apply output_format_2_parser_ok.
Qed.

End BlockClaims.

Lemma C2_witness :
  exists rows,
    output_format_3_parser literal
      ["550 1 2 3 4 5 6"; "0 90 180"; "10 0.1 a b c"; "20 0.2 d e f"]
    = Ok (genfromtxt literal "550 1 2 3 4 5 6",
          Some (np_seq string (map (zenith string literal)
                                 ["10 0.1 a b c"; "20 0.2 d e f"])),
          Some (genfromtxt literal "0 90 180"),
          Some (np_seq string (map (intensity string literal)
                                 ["10 0.1 a b c"; "20 0.2 d e f"])),
          Some (Nd2 (List.length (tokens "0 90 180"))
                  (List.length ["10 0.1 a b c"; "20 0.2 d e f"]) rows))
    /\ List.length rows = List.length (tokens "0 90 180")
    /\ forall j, j < List.length (tokens "0 90 180") ->
         nth_error rows j
         = Some (map (field string literal (2 + j))
                   ["10 0.1 a b c"; "20 0.2 d e f"]).
Proof.
  apply (C2_radiance_table_rows_are_azimuths string literal
           "550 1 2 3 4 5 6" "0 90 180" "10 0.1 a b c" ["20 0.2 d e f"]).
  repeat constructor.
Defined.

(** With two viewing angles and three azimuth angles the table has three
    rows and two columns, not two rows and three columns. *)
Lemma C2_counterexample :
  output_format_3_parser literal
    ["550 1 2 3 4 5 6"; "0 90 180"; "10 0.1 a b c"; "20 0.2 d e f"]
  = Ok (Nd1 ["550"; "1"; "2"; "3"; "4"; "5"; "6"],
        Some (Nd1 ["10"; "20"]), Some (Nd1 ["0"; "90"; "180"]),
        Some (Nd1 ["0.1"; "0.2"]),
        Some (Nd2 3 2 [["a"; "d"]; ["b"; "e"]; ["c"; "f"]]))
  /\ ~ (exists basic umu phi u0u rows,
          output_format_3_parser literal
            ["550 1 2 3 4 5 6"; "0 90 180"; "10 0.1 a b c"; "20 0.2 d e f"]
          = Ok (basic, umu, phi, u0u, Some (Nd2 2 3 rows))).
Proof.
  split; [reflexivity|].
  intros (basic & umu & phi & u0u & rows & H).
  vm_compute in H. discriminate H.
Qed.

(** When the first viewing-angle line is the empty one, [umu] is never
    bound and the parser raises. *)
Example empty_first_view_line_unbound :
  output_format_2_parser literal ["550 1 2 3 4 5 6"; ""; "20 0.2"; "30 0.3"]
  = Raise UnboundLocalError.
Proof. reflexivity. Qed.

Lemma C6_witness :
  nonempty "10 0.1" = true /\
  output_format_2_parser literal ["550 1 2 3 4 5 6"; "10 0.1"; ""; "30 0.3"]
  = output_format_2_parser literal
      ("550 1 2 3 4 5 6" :: "10 0.1" :: filter nonempty [""; "30 0.3"])
  /\ output_format_3_parser literal
       ["550 1 2 3 4 5 6"; "0 90"; "10 0.1"; ""; "30 0.3"]
     = output_format_3_parser literal
         ("550 1 2 3 4 5 6" :: "0 90" :: "10 0.1"
            :: filter nonempty [""; "30 0.3"])
  /\ (forallb (has_fields 2) ("10 0.1" :: filter nonempty [""; "30 0.3"])
      = true ->
      output_format_2_parser literal
        ["550 1 2 3 4 5 6"; "10 0.1"; ""; "30 0.3"]
      = Ok (genfromtxt literal "550 1 2 3 4 5 6",
            Some (np_seq string (map (zenith string literal)
                    ("10 0.1" :: filter nonempty [""; "30 0.3"]))), None,
            Some (np_seq string (map (intensity string literal)
                    ("10 0.1" :: filter nonempty [""; "30 0.3"]))), None)).
Proof.
  split; [reflexivity|].
  exact (C6_empty_lines_skipped string literal "550 1 2 3 4 5 6" "0 90"
           "10 0.1" [""; "30 0.3"] eq_refl).
Defined.

(** A line of blanks only is not passed over: the parser raises, while on
    the block without the line it returns the two angles. *)
Lemma C6_counterexample :
  output_format_2_parser literal ["550 1 2 3 4 5 6"; "10 0.1"; " "; "30 0.3"]
  = Raise IndexError
  /\ output_format_3_parser literal
       ["550 1 2 3 4 5 6"; "0 90"; "10 0.1 7 8"; " "; "30 0.3 5 6"]
     = Raise IndexError
  /\ output_format_2_parser literal ["550 1 2 3 4 5 6"; "10 0.1"; "30 0.3"]
     = Ok (Nd1 ["550"; "1"; "2"; "3"; "4"; "5"; "6"],
           Some (Nd1 ["10"; "30"]), None, Some (Nd1 ["0.1"; "0.3"]), None).
Proof. repeat split; reflexivity. Qed.

(** ** The row count *)

Lemma split_no_newline (s : string) :
  forallb no_newline (split newline s) = true.
Proof.
  induction s as [|c s IH]; [reflexivity|].
  cbn [split]. destruct (Ascii.eqb c newline) eqn:E.
  - simpl. exact IH.
  - destruct (split newline s) as [|h t]; simpl in *.
    + now rewrite E.
    + now rewrite E.
Qed.

Lemma split_length_pos (sep : ascii) (s : string) :
  1 <= List.length (split sep s).
Proof.
  induction s as [|c s IH]; cbn [split]; [simpl; lia|].
  destruct (Ascii.eqb c sep); [simpl; lia|].
  destruct (split sep s); simpl; lia.
Qed.

Lemma forallb_firstn {A : Type} (p : A -> bool) (n : nat) (l : list A) :
  forallb p l = true -> forallb p (firstn n l) = true.
Proof.
  revert l; induction n as [|n IH]; intros [|a l] H; simpl in *; auto.
  apply andb_prop in H as [Ha Hl]. now rewrite Ha, IH.
Qed.

Lemma mapM_ext {A B : Type} (f g : A -> result B) (l : list A) :
  (forall a, In a l -> f a = g a) -> mapM f l = mapM g l.
Proof.
  induction l as [|a l IH]; simpl; intros H; [reflexivity|].
  rewrite (H a) by now left.
  rewrite IH by (intros; apply H; now right). reflexivity.
Qed.

Lemma mapM_length {A B : Type} (f : A -> result B) (l : list A) (bs : list B) :
  mapM f l = Ok bs -> List.length bs = List.length l.
Proof.
  revert bs; induction l as [|a l IH]; simpl; intros bs H.
  - now injection H as <-.
  - destruct (f a); [|discriminate]. simpl in H.
    destruct (mapM f l) as [bs'|]; [|discriminate]. simpl in H.
    injection H as <-. simpl. now rewrite (IH bs').
Qed.

Lemma slice_prefix {A : Type} (a b m : nat) (l x : list A) :
  b <= m -> m <= List.length l ->
  slice a b (firstn m l ++ x)%list = slice a b l.
Proof.
  intros Hb Hm. unfold slice. f_equal.
  rewrite firstn_app, firstn_firstn, length_firstn.
  replace (b - Nat.min m (List.length l)) with 0 by lia.
  rewrite firstn_O, app_nil_r. f_equal. lia.
Qed.

Section RunClaims.

Variable F : Type.
Variable float_of : string -> F.
Variable uvspec : files -> string -> string -> proc_result.

(** The rows of a case are read from the lines before the end of the last
    whole block. *)
Lemma parse_case_prefix (conf : parser_conf) (vals : list string)
    (error : string) (q ind : nat) :
  (output_format conf =? 0)%Z = false ->
  (0 < lines_per_case conf)%Z ->
  ind < q ->
  q * Z.to_nat (lines_per_case conf) <= List.length vals ->
  parse_case float_of conf
    (firstn (q * Z.to_nat (lines_per_case conf)) vals ++ [""])%list error ind
  = parse_case float_of conf vals error ind.
Proof.
  intros E0 Hk Hind Hlen. unfold parse_case. f_equal.
  unfold parse_rows. rewrite E0.
  destruct (output_format conf =? 1)%Z eqn:E1.
  - rewrite (lines_per_case_1 conf E0 E1) in *.
    rewrite slice_prefix; [reflexivity| |assumption]. nia.
  - rewrite (lines_per_case_2 conf E0 E1) in *.
    destruct (output_format conf =? 2)%Z; [|reflexivity].
    rewrite slice_prefix; [reflexivity| |assumption]. nia.
Qed.

(** C1, as the code has it: when the solver succeeds and the number of
    lines is not a multiple of the lines of one case, both numbers being
    below 2^53 (where the float quotient of the code is not an integer and
    its integer part is the quotient rounded down), [run_libradtran]
    raises nothing for it: it prints the warning and the quotient, and goes
    on with the quotient rounded down, returning what it returns on the
    output cut after the last whole block; a list it returns has one
    record per whole block. *)
Theorem C1_row_count_mismatch_truncates (conf : parser_conf) (fs : files)
    (loc params : string) :
  let pros := uvspec fs loc params in
  let vals := split newline (stdout pros) in
  let n := (Z.of_nat (List.length vals) - 1)%Z in
  let k := lines_per_case conf in
  let cut := unlines (firstn (Z.to_nat (n / k * k)) vals) in
  returncode pros = 0%Z ->
  (0 <= output_format conf <= 2)%Z ->
  (0 < k)%Z ->
  (n < 2 ^ 53)%Z ->
  (k < 2 ^ 53)%Z ->
  Z.rem n k <> 0%Z ->
  run_libradtran float_of uvspec fs loc params conf
  = ([PrintStr "Something went wrong with row counting"; PrintFloat n k],
     snd (run_libradtran float_of
            (fun _ _ _ => mkProc 0 cut (stderr pros)) fs loc params conf))
  /\ forall output,
       snd (run_libradtran float_of uvspec fs loc params conf)
       = Ok (RetOutput output) ->
       Z.of_nat (List.length output) = (n / k)%Z.
Proof.
  intros pros vals n k cut Hrc Hf Hk _ _ Hrem.
  assert (Hn : (0 <= n)%Z).
  { subst n vals. pose proof (split_length_pos newline (stdout pros)). lia. }
  assert (E0 : (output_format conf =? 0)%Z = false).
  { destruct (output_format conf =? 0)%Z eqn:E; [|reflexivity].
    exfalso. apply Hrem. subst k. rewrite (lines_per_case_0 conf E).
    apply Z.rem_1_r. }
  assert (Hq : Z.quot n k = (n / k)%Z) by (apply Z.quot_div_nonneg; lia).
  assert (Hqk : (0 <= n / k * k <= n)%Z).
  { split; [apply Z.mul_nonneg_nonneg; [apply Z.div_pos|]; lia|].
    rewrite Z.mul_comm. apply Z.mul_div_le. lia. }
  assert (Hleft :
    run_libradtran float_of uvspec fs loc params conf
    = ([PrintStr "Something went wrong with row counting"; PrintFloat n k],
       output <- mapM (parse_case float_of conf vals (stderr pros))
                      (seq 0 (Z.to_nat (n / k))) ;;
       Ok (RetOutput output))).
  { unfold run_libradtran, parse_output. fold pros. rewrite Hrc. simpl negb.
    cbv iota. fold vals. fold n.
    rewrite loop_row_count_ok by (assumption || (fold k; lia)). fold k.
    unfold row_count_warning, is_integer, int_of. cbn [fst snd].
    apply Z.eqb_neq in Hrem. rewrite Hrem, Hq. reflexivity. }
  split.
  - rewrite Hleft. f_equal.
    unfold run_libradtran, parse_output. cbn [returncode stdout stderr].
    simpl negb. cbv iota. subst cut.
    rewrite split_unlines
      by (apply forallb_firstn; subst vals; apply split_no_newline).
    rewrite length_app, length_firstn.
    replace (Z.of_nat (Nat.min (Z.to_nat (n / k * k)) (List.length vals)
                       + List.length [""]) - 1)%Z
      with (n / k * k)%Z by (simpl List.length; subst n; lia).
    rewrite loop_row_count_ok by (assumption || (fold k; lia)). fold k.
    unfold row_count_warning, is_integer, int_of. cbn [fst snd].
    rewrite Z.quot_mul by lia.
    f_equal. apply mapM_ext. intros ind Hind. apply in_seq in Hind.
    replace (Z.to_nat (n / k * k)) with (Z.to_nat (n / k) * Z.to_nat k)
      by (rewrite Z2Nat.inj_mul; [reflexivity|apply Z.div_pos; lia|lia]).
    symmetry. subst k. apply parse_case_prefix; try assumption; lia.
  - intros output Hout. rewrite Hleft in Hout. cbn [snd] in Hout.
    destruct (mapM _ _) as [out|] eqn:Em; [|discriminate Hout].
    cbn [bind] in Hout. injection Hout as <-.
    rewrite (mapM_length _ _ _ Em), length_seq.
    rewrite Z2Nat.id; [reflexivity|apply Z.div_pos; lia].
Qed.

Lemma run_libradtran_error (conf : parser_conf) (fs : files) (loc params : string) :
  returncode (uvspec fs loc params) <> 0%Z ->
  run_libradtran float_of uvspec fs loc params conf
  = ([], Ok (RetError (stderr (uvspec fs loc params)))).
Proof.
  intros H. unfold run_libradtran, parse_output.
  apply Z.eqb_neq in H. now rewrite H.
Qed.

End RunClaims.

(** Three lines for blocks of two: the warning, then one record. *)
Lemma C1_counterexample :
  let out := unlines ["550 1 2 3 4 5 6"; "10 0.1"; "20 0.2"] in
  Z.rem (Z.of_nat (List.length (split newline out)) - 1)
        (lines_per_case (mkConf 1 1)) = 1%Z
  /\ run_libradtran literal echo_solver [] "bin" out (mkConf 1 1)
     = ([PrintStr "Something went wrong with row counting"; PrintFloat 3 2],
        Ok (RetOutput
              [mkOutput "550" "1" "2" "3" "4" "5" "6"
                 (Some (Nd0 "10")) None (Some (Nd0 "0.1")) None ""]))
  /\ forall e,
       snd (run_libradtran literal echo_solver [] "bin" out (mkConf 1 1))
       <> Raise e.
Proof.
  repeat split. intros e H. vm_compute in H. discriminate H.
Qed.

Lemma C1_witness :
  let params := unlines ["550 1 2 3 4 5 6"; "10 0.1"; "20 0.2"] in
  let conf := mkConf 1 1 in
  let pros := echo_solver [] "bin" params in
  let vals := split newline (stdout pros) in
  let n := (Z.of_nat (List.length vals) - 1)%Z in
  let k := lines_per_case conf in
  let cut := unlines (firstn (Z.to_nat (n / k * k)) vals) in
  run_libradtran literal echo_solver [] "bin" params conf
  = ([PrintStr "Something went wrong with row counting"; PrintFloat n k],
     snd (run_libradtran literal
            (fun _ _ _ => mkProc 0 cut (stderr pros)) [] "bin" params conf))
  /\ forall output,
       snd (run_libradtran literal echo_solver [] "bin" params conf)
       = Ok (RetOutput output) ->
       Z.of_nat (List.length output) = (n / k)%Z.
Proof.
  refine (C1_row_count_mismatch_truncates string literal echo_solver
            (mkConf 1 1) [] "bin"
            (unlines ["550 1 2 3 4 5 6"; "10 0.1"; "20 0.2"])
            eq_refl _ eq_refl eq_refl eq_refl _).
  - simpl; lia.
  - vm_compute. discriminate.
Defined.

(** ** The batch *)

Lemma prepared_confs (temp_name : nat -> string)
    (conf_file_list : list configuration) :
  forall n,
    map (fun p => fst (fst p)) (prepared temp_name n conf_file_list)
    = conf_file_list.
Proof.
  induction conf_file_list as [|c rest IH]; intros n; [reflexivity|].
  cbn [prepared]. destruct (prepare temp_name n c) as [[n' text] fs].
  cbn [map fst]. now rewrite IH.
Qed.

Lemma Forall2_nth_error_l {A B : Type} (R : A -> B -> Prop)
    (l : list A) (l' : list B) :
  Forall2 R l l' ->
  forall i a, nth_error l i = Some a ->
    exists b, nth_error l' i = Some b /\ R a b.
Proof.
  induction 1 as [|x y l l' Hxy _ IH]; intros i a Hi.
  - destruct i; discriminate.
  - destruct i as [|i]; simpl in Hi.
    + injection Hi as <-. now exists y.
    + apply (IH i a Hi).
Qed.

Section BatchClaims.

Variable F : Type.
Variable float_of : string -> F.
Variable uvspec : files -> string -> string -> proc_result.
Variable temp_name : nat -> string.

Lemma run_conf_files_loop_ok (loc : string)
    (conf_file_list : list configuration) :
  forall n log conf_results,
    (forall p, In p (prepared temp_name n conf_file_list) ->
       exists r, contributes float_of uvspec loc p r) ->
    exists results,
      snd (run_conf_files_loop float_of uvspec temp_name loc n conf_file_list
             log conf_results)
      = Ok (conf_results ++ results)%list
      /\ Forall2 (contributes float_of uvspec loc) (prepared temp_name n conf_file_list)
           results.
Proof.
  induction conf_file_list as [|c rest IH]; intros n log acc H.
  - exists []. simpl. rewrite app_nil_r. split; [reflexivity|constructor].
  - cbn [run_conf_files_loop prepared] in *. unfold run_conf.
    destruct (prepare temp_name n c) as [[n' text] fs].
    destruct (H (c, text, fs) (or_introl eq_refl)) as [r Hr].
    unfold contributes in Hr.
    destruct (run_libradtran float_of uvspec fs loc text (parser_options c))
      as [out res] eqn:Erun.
    cbn [snd] in Hr. subst res.
    destruct (IH n' (log ++ out)%list (acc ++ [r])%list) as (results & Hres & Hall).
    { intros p Hp. apply H. now right. }
    exists (r :: results). split.
    + rewrite Hres, <- app_assoc. reflexivity.
    + constructor; [|exact Hall]. unfold contributes. now rewrite Erun.
Qed.

End BatchClaims.

(** The batch of the example: the second entry is the error text, the
    first and the third are parsed. *)
Example example_batch_results :
  snd (run_conf_files_libradtran literal example_solver example_temp_name
         "bin" example_batch)
  = Ok [RetOutput [mkOutput "550" "1" "2" "3" "4" "5" "6"
                     None None None None ""];
        RetError "Error: bad input";
        RetOutput [mkOutput "551" "1" "2" "3" "4" "5" "6"
                     None None None None "";
                   mkOutput "552" "7" "8" "9" "10" "11" "/tmp/d/f0"
                     None None None None ""]].
Proof. reflexivity. Qed.

(** ** The run from the byte streams *)

Section ByteClaims.

Variable F : Type.
Variable float_of : string -> F.
Variable decode : string -> option string.
Variable popen : files -> string -> string -> raw_result.
Variable temp_name : nat -> string.

Lemma run_libradtran_bytes_error (conf : parser_conf) (fs : files)
    (loc params vals error : string) :
  raw_returncode (popen fs loc params) <> 0%Z ->
  decode (raw_stdout (popen fs loc params)) = Some vals ->
  decode (raw_stderr (popen fs loc params)) = Some error ->
  run_libradtran_bytes float_of decode popen fs loc params conf
  = ([], Ok (RetError error)).
Proof.
  intros Hrc Hout Herr. unfold run_libradtran_bytes, parse_output.
  rewrite Hout, Herr. cbn [returncode stderr].
  apply Z.eqb_neq in Hrc. now rewrite Hrc.
Qed.

(** C7, as the code has it: when the solver exits with a status other
    than zero and both of its streams decode, [run_libradtran] reads
    nothing of the decoded output, prints nothing and returns the decoded
    text of the error stream as it is. *)
Theorem C7_nonzero_exit_returns_stderr (conf : parser_conf) (fs : files)
    (loc params vals error : string) :
  raw_returncode (popen fs loc params) <> 0%Z ->
  decode (raw_stdout (popen fs loc params)) = Some vals ->
  decode (raw_stderr (popen fs loc params)) = Some error ->
  run_libradtran_bytes float_of decode popen fs loc params conf
  = ([], Ok (RetError error)).
Proof.
  intros Hexit Hout Herr. unfold run_libradtran_bytes.
  rewrite Hout, Herr. unfold parse_output. cbn [returncode stderr].
  destruct (raw_returncode (popen fs loc params) =? 0)%Z eqn:E.
  - apply Z.eqb_eq in E. contradiction.
  - reflexivity.
Qed.

(** The loop of the batch when every configuration returns. *)
Lemma run_conf_files_loop_bytes_ok (loc : string)
    (conf_file_list : list configuration) :
  forall n log conf_results,
    (forall c text fs, In (c, text, fs) (prepared temp_name n conf_file_list) ->
       exists r,
         snd (run_libradtran_bytes float_of decode popen fs loc text
                (parser_options c)) = Ok r) ->
    exists results,
      snd (run_conf_files_loop_bytes float_of decode popen temp_name loc n
             conf_file_list log conf_results)
      = Ok (conf_results ++ results)%list
      /\ Forall2 (fun p r =>
                    snd (run_libradtran_bytes float_of decode popen
                           (snd p) loc (snd (fst p))
                           (parser_options (fst (fst p)))) = Ok r)
           (prepared temp_name n conf_file_list) results.
Proof.
  induction conf_file_list as [|c rest IH]; intros n log acc H.
  - exists []. simpl. rewrite app_nil_r. split; [reflexivity|constructor].
  - cbn [run_conf_files_loop_bytes prepared] in *.
    destruct (prepare temp_name n c) as [[n' text] fs].
    destruct (H c text fs (or_introl eq_refl)) as [r Hr].
    destruct (run_libradtran_bytes float_of decode popen fs loc text
                (parser_options c)) as [out res] eqn:Erun.
    cbn [snd] in Hr. subst res.
    destruct (IH n' (log ++ out)%list (acc ++ [r])%list)
      as (results & Hres & Hall).
    { intros c' text' fs' Hp. apply H. now right. }
    exists (r :: results). split.
    + rewrite Hres, <- app_assoc. reflexivity.
    + constructor; [|exact Hall]. cbn [fst snd]. now rewrite Erun.
Qed.

(** C8, as the code has it: when every configuration of the list either
    has its solver exit with a status other than zero, both streams
    decoding, or is run and parsed without an exception,
    [run_conf_files_libradtran] returns a list with one entry per
    configuration, in the order of the list: the decoded error text for a
    configuration whose solver failed, the parsed records for the
    others. *)
Theorem C8_batch_isolates_failures (loc : string)
    (conf_file_list : list configuration) :
  (forall c text fs,
     In (c, text, fs) (prepared temp_name 0 conf_file_list) ->
     (raw_returncode (popen fs loc text) <> 0%Z
      /\ exists vals error,
           decode (raw_stdout (popen fs loc text)) = Some vals
           /\ decode (raw_stderr (popen fs loc text)) = Some error)
     \/ (raw_returncode (popen fs loc text) = 0%Z
         /\ exists output,
              snd (run_libradtran_bytes float_of decode popen fs loc text
                     (parser_options c))
              = Ok (RetOutput output))) ->
  exists results,
    snd (run_conf_files_libradtran_bytes float_of decode popen temp_name loc
           conf_file_list)
    = Ok results
    /\ List.length results = List.length conf_file_list
    /\ forall i c, nth_error conf_file_list i = Some c ->
       exists text fs r,
         nth_error (prepared temp_name 0 conf_file_list) i = Some (c, text, fs)
         /\ nth_error results i = Some r
         /\ snd (run_libradtran_bytes float_of decode popen fs loc text
                   (parser_options c))
            = Ok r
         /\ (raw_returncode (popen fs loc text) <> 0%Z ->
             exists error,
               decode (raw_stderr (popen fs loc text)) = Some error
               /\ r = RetError error)
         /\ (raw_returncode (popen fs loc text) = 0%Z ->
             exists output, r = RetOutput output).
Proof.
  intros H.
  assert (Hall : forall c text fs,
            In (c, text, fs) (prepared temp_name 0 conf_file_list) ->
            exists r,
              snd (run_libradtran_bytes float_of decode popen fs loc text
                     (parser_options c)) = Ok r).
  { intros c text fs Hp.
    destruct (H c text fs Hp) as [[Hrc (vals & error & Ho & He)]
                                 |[_ [output Ho]]].
    - exists (RetError error).
      now rewrite (run_libradtran_bytes_error (parser_options c) fs loc text
                     vals error Hrc Ho He).
    - now exists (RetOutput output). }
  destruct (run_conf_files_loop_bytes_ok loc conf_file_list 0 [] [] Hall)
    as (results & Hres & Hf2).
  exists results. split; [exact Hres|]. split.
  - rewrite <- (Forall2_length Hf2).
    rewrite <- (prepared_confs temp_name conf_file_list 0) at 2.
    now rewrite length_map.
  - intros i c Hi.
    pose proof (prepared_confs temp_name conf_file_list 0) as Hmap.
    rewrite <- Hmap in Hi. rewrite nth_error_map in Hi.
    destruct (nth_error (prepared temp_name 0 conf_file_list) i)
      as [[[c' text] fs]|] eqn:Ep; [|discriminate Hi].
    cbn in Hi. injection Hi as ->.
    destruct (Forall2_nth_error_l _ _ _ Hf2 i _ Ep) as (r & Hr & Hc).
    cbn [fst snd] in Hc.
    exists text, fs, r. repeat split; try assumption.
    + intros E.
      destruct (H c text fs (nth_error_In _ _ Ep))
        as [[_ (vals & error & Ho & He)]|[E0 _]]; [|contradiction].
      exists error. split; [exact He|].
      rewrite (run_libradtran_bytes_error (parser_options c) fs loc text
                 vals error E Ho He) in Hc.
      now injection Hc as <-.
    + intros E.
      destruct (H c text fs (nth_error_In _ _ Ep))
        as [[Hrc _]|[_ [output Ho]]]; [contradiction|].
      rewrite Ho in Hc. injection Hc as <-. now exists output.
Qed.

End ByteClaims.

(** The solver fails and its output is not UTF-8: the call raises, and the
    text of the error stream, which decodes, is not returned. *)
Lemma C7_counterexample :
  raw_returncode (garbled_popen [] "bin" "wavelength 550") <> 0%Z
  /\ utf8_decode (raw_stderr (garbled_popen [] "bin" "wavelength 550"))
     = Some "uvspec: fatal"
  /\ run_libradtran_bytes literal utf8_decode garbled_popen [] "bin"
       "wavelength 550" (mkConf 0 0)
     = ([], Raise UnicodeDecodeError).
Proof. repeat split. simpl. lia. Qed.

Lemma C7_witness :
  run_libradtran_bytes literal utf8_decode example_popen [] "bin" "bad"
    (mkConf 0 0)
  = ([], Ok (RetError "Error: bad input")).
Proof.
  refine (C7_nonzero_exit_returns_stderr string literal utf8_decode
            example_popen (mkConf 0 0) [] "bin" "bad" "" "Error: bad input"
            _ eq_refl eq_refl).
  simpl; lia.
Defined.

(** The second configuration fails and the output of the third has a short
    line: no list is returned, and the error text of the second is lost. *)
Lemma C8_counterexample :
  nth_error (prepared example_temp_name 0 example_batch_fail_then_short) 1
  = Some (mkConfiguration (mkConf 0 0) "bad" None, "bad", [])
  /\ run_libradtran_bytes literal utf8_decode example_popen [] "bin" "bad"
       (mkConf 0 0)
     = ([], Ok (RetError "Error: bad input"))
  /\ snd (run_conf_files_libradtran_bytes literal utf8_decode example_popen
            example_temp_name "bin" example_batch_fail_then_short)
     = Raise IndexError
  /\ ~ (exists results,
          snd (run_conf_files_libradtran_bytes literal utf8_decode
                 example_popen example_temp_name "bin"
                 example_batch_fail_then_short)
          = Ok results).
Proof.
  repeat split. intros [results H]. vm_compute in H. discriminate H.
Qed.

Lemma C8_witness :
  exists results,
    snd (run_conf_files_libradtran_bytes literal utf8_decode example_popen
           example_temp_name "bin" example_batch)
    = Ok results
    /\ List.length results = List.length example_batch
    /\ forall i c, nth_error example_batch i = Some c ->
       exists text fs r,
         nth_error (prepared example_temp_name 0 example_batch) i
         = Some (c, text, fs)
         /\ nth_error results i = Some r
         /\ snd (run_libradtran_bytes literal utf8_decode example_popen fs
                   "bin" text (parser_options c))
            = Ok r
         /\ (raw_returncode (example_popen fs "bin" text) <> 0%Z ->
             exists error,
               utf8_decode (raw_stderr (example_popen fs "bin" text))
               = Some error
               /\ r = RetError error)
         /\ (raw_returncode (example_popen fs "bin" text) = 0%Z ->
             exists output, r = RetOutput output).
Proof.
  apply (C8_batch_isolates_failures string literal utf8_decode example_popen
           example_temp_name "bin" example_batch).
  intros c text fs Hin. simpl in Hin.
  destruct Hin as [E|[E|[E|[]]]]; injection E as <- <- <-.
  - right. split; [reflexivity|]. eexists. vm_compute. reflexivity.
  - left. split; [simpl; lia|]. exists "", "Error: bad input".
    split; reflexivity.
  - right. split; [reflexivity|]. eexists. vm_compute. reflexivity.
Defined.

(** * Further properties of the code *)

(** ** [run_libradtran] at the edges of its input *)

Lemma mapM_first_raise {A B : Type} (f : A -> result B) (l1 : list A)
    (a : A) (l2 : list A) (e : exn) :
  (forall x, In x l1 -> exists b, f x = Ok b) ->
  f a = Raise e ->
  mapM f (l1 ++ a :: l2)%list = Raise e.
Proof.
  intros Hok Ha. induction l1 as [|x l1 IH]; simpl.
  - now rewrite Ha.
  - destruct (Hok x (or_introl eq_refl)) as [b Hb]. rewrite Hb. simpl.
    rewrite IH by (intros y Hy; apply Hok; now right). reflexivity.
Qed.

Lemma mapM_Forall {A B : Type} (f : A -> result B) (P : B -> Prop)
    (l : list A) :
  (forall a b, f a = Ok b -> P b) ->
  forall bs, mapM f l = Ok bs -> Forall P bs.
Proof.
  intros HP. induction l as [|a l IH]; simpl; intros bs H.
  - injection H as <-. constructor.
  - destruct (f a) as [b|] eqn:Ea; [|discriminate]. simpl in H.
    destruct (mapM f l) as [bs'|]; [|discriminate]. simpl in H.
    injection H as <-. constructor; [now apply (HP a)|now apply IH].
Qed.

Lemma split_unlines_tail (lines : list string) (last : string) :
  forallb no_newline lines = true ->
  no_newline last = true ->
  split newline (unlines lines ++ last) = (lines ++ [last])%list.
Proof.
  intros Hl Hlast. induction lines as [|l lines IH].
  - clear Hl. simpl. induction last as [|c last IHl]; [reflexivity|].
    simpl in Hlast. apply andb_prop in Hlast as [Hc Hr].
    apply negb_true_iff in Hc. cbn [split]. rewrite Hc, (IHl Hr). reflexivity.
  - simpl in Hl. apply andb_prop in Hl as [Hl0 Hr].
    cbn [unlines]. rewrite !string_app_assoc.
    rewrite (split_line _ _ Hl0), (IH Hr). reflexivity.
Qed.

Section EdgeProps.

Variable F : Type.
Variable float_of : string -> F.
Variable uvspec : files -> string -> string -> proc_result.

(** A basic line of fewer than seven fields cannot fill the record. *)
Lemma basic_fields_short (b : string) (umu phi u0u uu : pyval F)
    (error : string) :
  has_fields 7 b = false ->
  (f0 <- getitem (genfromtxt float_of b) 0 ;;
   f1 <- getitem (genfromtxt float_of b) 1 ;;
   f2 <- getitem (genfromtxt float_of b) 2 ;;
   f3 <- getitem (genfromtxt float_of b) 3 ;;
   f4 <- getitem (genfromtxt float_of b) 4 ;;
   f5 <- getitem (genfromtxt float_of b) 5 ;;
   f6 <- getitem (genfromtxt float_of b) 6 ;;
   Ok (mkOutput f0 f1 f2 f3 f4 f5 f6 umu phi u0u uu error))
  = Raise IndexError.
Proof.
  unfold has_fields, genfromtxt. intros H. apply Nat.leb_gt in H.
  destruct (tokens b) as [|t0 [|t1 [|t2 [|t3 [|t4 [|t5 [|t6 ts]]]]]]];
    try reflexivity.
  simpl in H. lia.
Qed.

Lemma parse_case_message (conf : parser_conf) (vals : list string)
    (error : string) (ind : nat) (r : output_dict F) :
  parse_case float_of conf vals error ind = Ok r -> o_message r = error.
Proof.
  unfold parse_case. destruct (parse_rows float_of conf vals ind)
    as [[[[[basic umu] phi] u0u] uu]|]; [|discriminate].
  cbn [bind].
  repeat (match goal with
          | |- context [getitem basic ?j] =>
              destruct (getitem basic j); [cbn [bind]|discriminate]
          end).
  intros H. now injection H as <-.
Qed.

(** X1: a solver that succeeds and prints nothing gives the empty list:
    for each of the three formats, when the per-case line count is not
    zero, [run_libradtran] returns [[]] and prints no warning. *)
Theorem run_libradtran_empty_output (conf : parser_conf) (fs : files)
    (loc params : string) :
  returncode (uvspec fs loc params) = 0%Z ->
  stdout (uvspec fs loc params) = "" ->
  (0 <= output_format conf <= 2)%Z ->
  lines_per_case conf <> 0%Z ->
  run_libradtran float_of uvspec fs loc params conf = ([], Ok (RetOutput [])).
Proof.
  intros Hrc Hout Hf Hk. unfold run_libradtran, parse_output.
  rewrite Hrc, Hout. simpl negb. cbv iota. cbn [split List.length].
  rewrite loop_row_count_ok by assumption.
  unfold row_count_warning, is_integer, int_of. cbn [fst snd].
  change (Z.of_nat 1 - 1)%Z with 0%Z.
  rewrite Z.rem_0_l, Z.quot_0_l by assumption. reflexivity.
Qed.

(** X2: an [output_format] other than 0, 1 and 2 is not refused by name:
    when the solver succeeds, no branch binds [loop_row_count] and
    [run_libradtran] raises [UnboundLocalError], whatever the output is. *)
Theorem run_libradtran_unknown_format (conf : parser_conf) (fs : files)
    (loc params : string) :
  returncode (uvspec fs loc params) = 0%Z ->
  ~ (0 <= output_format conf <= 2)%Z ->
  run_libradtran float_of uvspec fs loc params conf
  = ([], Raise UnboundLocalError).
Proof.
  intros Hrc Hf. unfold run_libradtran, parse_output, loop_row_count.
  rewrite Hrc. simpl negb. cbv iota.
  destruct (output_format conf =? 0)%Z eqn:E0; [apply Z.eqb_eq in E0; lia|].
  destruct (output_format conf =? 1)%Z eqn:E1; [apply Z.eqb_eq in E1; lia|].
  destruct (output_format conf =? 2)%Z eqn:E2; [apply Z.eqb_eq in E2; lia|].
  reflexivity.
Qed.

(** X3: a per-case line count of zero ([umu_length] -1 for format 1, -2
    for format 2) makes [run_libradtran] raise [ZeroDivisionError] when the
    solver succeeds, whatever the output is. *)
Theorem run_libradtran_zero_lines_per_case (conf : parser_conf) (fs : files)
    (loc params : string) :
  returncode (uvspec fs loc params) = 0%Z ->
  (output_format conf = 1 /\ umu_length conf = -1
   \/ output_format conf = 2 /\ umu_length conf = -2)%Z ->
  run_libradtran float_of uvspec fs loc params conf
  = ([], Raise ZeroDivisionError).
Proof.
  intros Hrc H. unfold run_libradtran, parse_output, loop_row_count.
  rewrite Hrc. simpl negb. cbv iota.
  destruct H as [[-> ->]|[-> ->]]; reflexivity.
Qed.

(** X4: with a negative per-case line count ([umu_length] below -1 for
    format 1, below -2 for format 2) no line is parsed: when the solver
    succeeds, [run_libradtran] returns the empty list, whatever the output
    is. *)
Theorem run_libradtran_negative_lines_per_case (conf : parser_conf)
    (fs : files) (loc params : string) :
  returncode (uvspec fs loc params) = 0%Z ->
  (0 <= output_format conf <= 2)%Z ->
  (lines_per_case conf < 0)%Z ->
  snd (run_libradtran float_of uvspec fs loc params conf)
  = Ok (RetOutput []).
Proof.
  intros Hrc Hf Hk. unfold run_libradtran, parse_output.
  rewrite Hrc. simpl negb. cbv iota.
  rewrite loop_row_count_ok by (assumption || lia).
  cbn [snd]. unfold int_of. cbn [fst snd].
  pose proof (split_length_pos newline (stdout (uvspec fs loc params))) as Hlen.
  set (n := (Z.of_nat (List.length (split newline
                 (stdout (uvspec fs loc params)))) - 1)%Z) in *.
  assert (Hq : (Z.quot n (lines_per_case conf) <= 0)%Z).
  { rewrite <- (Z.opp_involutive (lines_per_case conf)).
    rewrite Z.quot_opp_r by lia.
    assert (0 <= Z.quot n (- lines_per_case conf))%Z
      by (apply Z.quot_pos; lia).
    lia. }
  replace (Z.to_nat (Z.quot n (lines_per_case conf))) with 0 by lia.
  reflexivity.
Qed.

(** X5: whenever [run_libradtran] returns a list of records, the solver
    exited with status zero and every record of the list carries the text
    of the error stream of that run as its message. *)
Theorem run_libradtran_records_carry_stderr (conf : parser_conf) (fs : files)
    (loc params : string) (output : list (output_dict F)) :
  snd (run_libradtran float_of uvspec fs loc params conf)
  = Ok (RetOutput output) ->
  returncode (uvspec fs loc params) = 0%Z
  /\ Forall (fun r => o_message r = stderr (uvspec fs loc params)) output.
Proof.
  unfold run_libradtran, parse_output. intros H.
  destruct (returncode (uvspec fs loc params) =? 0)%Z eqn:E; simpl negb in H;
    cbv iota in H; [|discriminate H].
  apply Z.eqb_eq in E. split; [exact E|].
  destruct (loop_row_count conf _) as [q|]; [|discriminate H].
  cbn [snd] in H.
  destruct (mapM _ _) as [out|] eqn:Em; [|discriminate H].
  cbn [bind] in H. injection H as <-.
  eapply mapM_Forall; [|exact Em].
  intros ind r Hr. now apply parse_case_message in Hr.
Qed.

End EdgeProps.

Section OutputProps.

Variable F : Type.
Variable float_of : string -> F.
Variable uvspec : files -> string -> string -> proc_result.

(** The output of a run made of well-formed blocks and some text after the
    last newline. *)
Lemma parse_output_blocks_tail (conf : parser_conf)
    (blocks : list (list string)) (last error : string) :
  (0 <= output_format conf <= 2)%Z ->
  (0 < lines_per_case conf)%Z ->
  forallb (well_formed_block conf) blocks = true ->
  forallb no_newline (List.concat blocks) = true ->
  no_newline last = true ->
  parse_output float_of
    (mkProc 0 (unlines (List.concat blocks) ++ last) error) conf
  = ([], Ok (RetOutput (map (block_record F float_of conf error) blocks))).
Proof.
  intros Hf Hk Hwf Hnl Hlast. unfold parse_output.
  cbn [returncode stdout stderr]. simpl negb. cbv iota.
  rewrite (split_unlines_tail _ _ Hnl Hlast).
  set (k := Z.to_nat (lines_per_case conf)).
  assert (Hlen : Forall (fun b : list string => List.length b = k) blocks).
  { apply Forall_forall. intros b Hb.
    rewrite forallb_forall in Hwf. specialize (Hwf b Hb).
    unfold well_formed_block in Hwf. apply andb_prop in Hwf as [Hl _].
    apply Z.eqb_eq in Hl. subst k. lia. }
  rewrite length_app, (concat_length_blocks k blocks Hlen).
  rewrite loop_row_count_ok by (assumption || lia).
  replace (Z.of_nat (List.length blocks * k + List.length [last]) - 1)%Z
    with (Z.of_nat (List.length blocks) * lines_per_case conf)%Z
    by (simpl List.length; subst k; nia).
  unfold row_count_warning, is_integer, int_of. cbn [fst snd].
  rewrite Z.rem_mul by lia. simpl.
  rewrite Z.quot_mul by lia. rewrite Nat2Z.id.
  rewrite (mapM_ok _ (fun ind => block_record F float_of conf error
                                   (nth ind blocks []))).
  - cbn [bind]. rewrite <- (map_nth_seq _ [] blocks). reflexivity.
  - intros ind Hin. apply in_seq in Hin.
    destruct (nth_error blocks ind) as [b|] eqn:Eb;
      [|apply nth_error_None in Eb; lia].
    assert (Hblock : block conf (List.concat blocks ++ [last])%list ind = b).
    { unfold block.
      replace (Z.to_nat (Z.of_nat ind * lines_per_case conf)) with (ind * k)
        by (subst k; nia).
      replace (Z.to_nat ((Z.of_nat ind + 1) * lines_per_case conf))
        with ((ind + 1) * k) by (subst k; nia).
      now apply slice_concat. }
    rewrite (nth_error_nth _ _ _ Eb).
    rewrite <- Hblock at 1. apply parse_case_block. rewrite Hblock.
    rewrite forallb_forall in Hwf. apply Hwf.
    now apply nth_error_In with ind.
Qed.

(** X6: the text that follows the last newline of the output is never
    read: when the solver succeeds and prints well-formed blocks and then
    some text without a newline, [run_libradtran] returns the records of
    the blocks, one per block in order, and prints no warning. *)
Theorem run_libradtran_ignores_unterminated_line (conf : parser_conf)
    (blocks : list (list string)) (last : string) (fs : files)
    (loc params error : string) :
  (0 <= output_format conf <= 2)%Z ->
  (0 < lines_per_case conf)%Z ->
  forallb (well_formed_block conf) blocks = true ->
  forallb no_newline (List.concat blocks) = true ->
  no_newline last = true ->
  uvspec fs loc params
  = mkProc 0 (unlines (List.concat blocks) ++ last) error ->
  run_libradtran float_of uvspec fs loc params conf
  = ([], Ok (RetOutput (map (block_record F float_of conf error) blocks))).
Proof.
  intros Hf Hk Hwf Hnl Hlast Hrun. unfold run_libradtran. rewrite Hrun.
  now apply parse_output_blocks_tail.
Qed.

(** X7: for format 0, a line of fewer than seven fields makes the whole
    call raise [IndexError], whatever the lines before it (which have their
    seven fields) and after it hold: no record is returned. *)
Theorem run_libradtran_short_line_raises (conf : parser_conf)
    (good : list string) (bad : string) (rest : list string)
    (fs : files) (loc params error : string) :
  output_format conf = 0%Z ->
  forallb (has_fields 7) good = true ->
  has_fields 7 bad = false ->
  forallb no_newline (good ++ bad :: rest) = true ->
  uvspec fs loc params = mkProc 0 (unlines (good ++ bad :: rest)) error ->
  run_libradtran float_of uvspec fs loc params conf
  = ([], Raise IndexError).
Proof.
  intros Hfmt Hgood Hbad Hnl Hrun. unfold run_libradtran, parse_output.
  rewrite Hrun. cbn [returncode stdout stderr]. simpl negb. cbv iota.
  rewrite (split_unlines _ Hnl).
  unfold loop_row_count. rewrite Hfmt. simpl Z.eqb. cbv iota.
  unfold row_count_warning, is_integer, int_of. cbn [fst snd].
  rewrite Z.rem_1_r, Z.quot_1_r. simpl Z.eqb. cbv iota. f_equal.
  rewrite !length_app. cbn [List.length].
  replace (Z.to_nat (Z.of_nat (List.length good + S (List.length rest) + 1) - 1))
    with (List.length good + S (List.length rest)) by lia.
  rewrite seq_app. cbn [seq].
  rewrite (mapM_first_raise _ _ _ _ IndexError); [reflexivity| |].
  - intros ind Hin. apply in_seq in Hin.
    destruct (nth_error good ind) as [l|] eqn:El;
      [|apply nth_error_None in El; lia].
    unfold parse_case, parse_rows. rewrite Hfmt. simpl Z.eqb. cbv iota.
    rewrite <- app_assoc, nth_error_app1, El by lia.
    cbn [output_format_1_parser bind]. eexists.
    apply basic_fields.
    rewrite forallb_forall in Hgood. apply Hgood.
    now apply nth_error_In with ind.
  - unfold parse_case, parse_rows. rewrite Hfmt. simpl Z.eqb. cbv iota.
    rewrite <- app_assoc, nth_error_app2, Nat.add_0_l, Nat.sub_diag by lia.
    cbn [nth_error app output_format_1_parser bind].
    now apply basic_fields_short.
Qed.

(** X8: formats 1 and 2 need at least one viewing angle: with
    [umu_length] 0, as soon as the output holds one whole block (one line
    for format 1, two for format 2), [run_libradtran] raises
    [UnboundLocalError], whatever the lines hold. *)
Theorem run_libradtran_no_viewing_angle_raises (conf : parser_conf)
    (fs : files) (loc params : string) :
  returncode (uvspec fs loc params) = 0%Z ->
  umu_length conf = 0%Z ->
  (output_format conf = 1%Z
   /\ 2 <= List.length (split newline (stdout (uvspec fs loc params)))
   \/ output_format conf = 2%Z
   /\ 3 <= List.length (split newline (stdout (uvspec fs loc params)))) ->
  snd (run_libradtran float_of uvspec fs loc params conf)
  = Raise UnboundLocalError.
Proof.
  intros Hrc Humu H. unfold run_libradtran, parse_output.
  rewrite Hrc. simpl negb. cbv iota.
  set (vals := split newline (stdout (uvspec fs loc params))) in *.
  unfold loop_row_count, int_of.
  destruct H as [[Hfmt Hlen]|[Hfmt Hlen]]; rewrite Hfmt, Humu;
    simpl Z.eqb; cbv iota; cbn [fst snd].
  - rewrite Z.quot_1_r.
    destruct (Z.to_nat (Z.of_nat (List.length vals) - 1)) as [|q] eqn:Eq;
      [lia|].
    cbn [seq mapM]. unfold parse_case at 1, parse_rows.
    rewrite Hfmt, Humu. simpl Z.eqb. cbv iota.
    destruct vals as [|v0 vals']; [simpl in Hlen; lia|]. reflexivity.
  - change (2 + 0)%Z with 2%Z.
    destruct (Z.to_nat (Z.quot (Z.of_nat (List.length vals) - 1) 2))
      as [|q] eqn:Eq.
    + assert (1 <= Z.quot (Z.of_nat (List.length vals) - 1) 2)%Z.
      { rewrite Z.quot_div_nonneg by lia.
        apply Z.div_le_lower_bound; lia. }
      lia.
    + cbn [seq mapM]. unfold parse_case at 1, parse_rows.
      rewrite Hfmt, Humu. simpl Z.eqb. cbv iota.
      destruct vals as [|v0 [|v1 vals']]; simpl in Hlen; try lia.
      reflexivity.
Qed.

End OutputProps.

(** ** The block parsers on lines that do not fit *)

Section MisfitProps.

Variable F : Type.
Variable float_of : string -> F.

(** After the first turn the index of the loop plays no part. *)
Lemma format_2_loop_index (ls : list string) (i j : nat)
    (umu u0u : option (ndarray F)) :
  format_2_loop float_of (S i) ls umu u0u
  = format_2_loop float_of (S j) ls umu u0u.
Proof.
  rewrite (format_2_loop_skip F float_of ls i 0).
  now rewrite (format_2_loop_skip F float_of ls j 0).
Qed.

Lemma format_3_loop_index (ls : list string) (i j : nat) (st : locals3 F) :
  format_3_loop float_of (S i) ls st = format_3_loop float_of (S j) ls st.
Proof.
  rewrite (format_3_loop_skip F float_of ls i 0).
  now rewrite (format_3_loop_skip F float_of ls j 0).
Qed.

(** The loop over two lists in a row is the loop over the first and then
    over the second. *)
Lemma format_2_loop_app (ls more : list string) :
  forall i umu u0u,
    format_2_loop float_of (S i) (ls ++ more) umu u0u
    = (st <- format_2_loop float_of (S i) ls umu u0u ;;
       format_2_loop float_of (S i) more (fst st) (snd st)).
Proof.
  induction ls as [|l ls IH]; intros i umu u0u; [reflexivity|].
  cbn [app format_2_loop].
  destruct (String.eqb l "").
  - rewrite IH. destruct (format_2_loop float_of (S (S i)) ls umu u0u)
      as [[a b]|]; [|reflexivity].
    cbn [bind fst snd]. apply format_2_loop_index.
  - destruct (load umu); [|reflexivity]. cbn [bind].
    destruct (getitem2 _ 0); [|reflexivity]. cbn [bind].
    destruct (load u0u); [|reflexivity]. cbn [bind].
    destruct (getitem2 _ 1); [|reflexivity]. cbn [bind].
    rewrite IH. destruct (format_2_loop float_of (S (S i)) ls _ _)
      as [[x y]|]; [|reflexivity].
    cbn [bind fst snd]. apply format_2_loop_index.
Qed.

Lemma format_3_loop_app (ls more : list string) :
  forall i st,
    format_3_loop float_of (S i) (ls ++ more) st
    = (st' <- format_3_loop float_of (S i) ls st ;;
       format_3_loop float_of (S i) more st').
Proof.
  induction ls as [|l ls IH]; intros i st; [reflexivity|].
  cbn [app format_3_loop].
  destruct (String.eqb l "").
  - rewrite IH. destruct (format_3_loop float_of (S (S i)) ls st);
      [|reflexivity].
    cbn [bind]. apply format_3_loop_index.
  - destruct (load (l_umu st)); [|reflexivity]. cbn [bind].
    destruct (getitem2 _ 0); [|reflexivity]. cbn [bind].
    destruct (load (l_u0u st)); [|reflexivity]. cbn [bind].
    destruct (getitem2 _ 1); [|reflexivity]. cbn [bind].
    destruct (load (l_uu st)); [|reflexivity]. cbn [bind].
    destruct (getslice2 _ 2); [|reflexivity]. cbn [bind].
    destruct (expand_dims1 _); [|reflexivity]. cbn [bind].
    destruct (np_append_axis1 _ _); [|reflexivity]. cbn [bind].
    rewrite IH. destruct (format_3_loop float_of (S (S i)) ls _);
      [|reflexivity].
    cbn [bind]. apply format_3_loop_index.
Qed.

(** A line that is not empty and has fewer than two fields gives a row
    without a first entry. *)
Lemma short_row (line : string) :
  has_fields 2 line = false ->
  getitem2 (expand_dims0 (genfromtxt float_of line)) 0 = Raise IndexError.
Proof.
  unfold has_fields, genfromtxt. intros H. apply Nat.leb_gt in H.
  destruct (tokens line) as [|t0 [|t1 ts]]; try reflexivity.
  simpl in H. lia.
Qed.

(** X9: with one viewing angle [umu] and [u0u] are scalars, not arrays of
    length one: on a block with a single viewing-angle line of at least two
    fields the format 1 parser returns the first and the second field as
    0-d values, and so does the format 2 parser, whose table then has one
    column. *)
Theorem single_viewing_angle_gives_scalars (m : nat) (b phi v : string) :
  List.length (tokens v) = 2 + m ->
  output_format_2_parser float_of [b; v]
  = Ok (genfromtxt float_of b, Some (Nd0 (zenith F float_of v)), None,
        Some (Nd0 (intensity F float_of v)), None)
  /\ output_format_3_parser float_of [b; phi; v]
     = Ok (genfromtxt float_of b, Some (Nd0 (zenith F float_of v)),
           Some (genfromtxt float_of phi),
           Some (Nd0 (intensity F float_of v)),
           Some (Nd2 m 1
                   (map (fun j => [field F float_of (2 + j) v]) (seq 0 m)))).
Proof.
  intros Hv. split.
  - rewrite output_format_2_parser_ok; [reflexivity|].
    simpl. now rewrite (fields_has_2 m v Hv).
  - rewrite (output_format_3_parser_ok F float_of m b phi v []);
      [reflexivity|]. now constructor.
Qed.

(** X10: for format 1, a viewing-angle line that is not empty and has
    fewer than two fields makes the parser raise [IndexError], whatever
    the lines after it hold, when the lines before it have their two
    fields. *)
Theorem output_format_2_parser_short_line_raises (b : string)
    (good : list string) (bad : string) (rest : list string) :
  forallb (has_fields 2) good = true ->
  nonempty bad = true ->
  has_fields 2 bad = false ->
  output_format_2_parser float_of (b :: good ++ bad :: rest)
  = Raise IndexError.
Proof.
  intros Hgood Hne Hbad. unfold nonempty in Hne. apply negb_true_iff in Hne.
  unfold output_format_2_parser.
  destruct good as [|v good].
  - cbn [app format_2_loop]. rewrite Hne, (short_row bad Hbad). reflexivity.
  - simpl in Hgood. apply andb_prop in Hgood as [Hv Hgood].
    cbn [app format_2_loop]. rewrite (has_fields_nonempty 1 v Hv).
    rewrite (row_zenith F float_of v Hv), (row_intensity F float_of v Hv).
    cbn [bind]. rewrite format_2_loop_app.
    change (Nd0 (zenith F float_of v)) with (np_seq F [zenith F float_of v]).
    change (Nd0 (intensity F float_of v))
      with (np_seq F [intensity F float_of v]).
    rewrite (format_2_loop_tail F float_of good Hgood) by discriminate.
    cbn [bind fst snd format_2_loop]. rewrite Hne.
    destruct (np_seq F _); cbn [load bind];
      now rewrite (short_row bad Hbad).
Qed.

(** X11: for format 2, the viewing-angle lines must all hold the same
    number of radiances: a line with another number of fields than the
    lines before it makes the parser raise [ValueError]. *)
Theorem output_format_3_parser_ragged_raises (m m' : nat) (b phi v : string)
    (good : list string) (bad : string) (rest : list string) :
  Forall (fun l => List.length (tokens l) = 2 + m) (v :: good) ->
  List.length (tokens bad) = 2 + m' ->
  m' <> m ->
  output_format_3_parser float_of (b :: phi :: v :: good ++ bad :: rest)
  = Raise ValueError.
Proof.
  intros Hall Hbad Hm. unfold output_format_3_parser.
  change (v :: good ++ bad :: rest) with ((v :: good) ++ bad :: rest)%list.
  assert (Hsplit : forall ls more st,
            format_3_loop float_of 0 (v :: ls ++ more) st
            = (st' <- format_3_loop float_of 0 (v :: ls) st ;;
               format_3_loop float_of 1 more st')).
  { intros ls more st. cbn [format_3_loop].
    destruct (String.eqb v "").
    - apply format_3_loop_app.
    - destruct (getitem2 _ 0); [|reflexivity]. cbn [bind].
      destruct (getitem2 _ 1); [|reflexivity]. cbn [bind].
      destruct (getslice2 _ 2); [|reflexivity]. cbn [bind].
      destruct (expand_dims1 _); [|reflexivity]. cbn [bind].
      apply format_3_loop_app. }
  cbn [app]. rewrite Hsplit.
  rewrite (format_3_loop_views F float_of m v good Hall). cbn [bind].
  pose proof (fields_has_2 m' bad Hbad) as H2.
  cbn [format_3_loop]. rewrite (has_fields_nonempty 1 bad H2).
  cbn [l_umu l_u0u l_uu load bind].
  rewrite (row_zenith F float_of bad H2), (row_intensity F float_of bad H2),
    (row_radiances F float_of bad H2). cbn [bind expand_dims1].
  rewrite (radiances_fields F float_of m' bad Hbad).
  rewrite !length_map, length_seq. cbn [np_append_axis1].
  assert (E : Nat.eqb m m' = false) by (apply Nat.eqb_neq; congruence).
  rewrite E. reflexivity.
Qed.

End MisfitProps.

(** ** Injection and the batch, further *)

Lemma occurs_in_join (d : string) (l : list string) :
  In d l -> occurs d (join l).
Proof.
  induction l as [|x l IH]; intros H; [contradiction|].
  destruct H as [->|H].
  - exists "", (join l). reflexivity.
  - destruct (IH H) as (a & b & E). exists (x ++ a), b.
    cbn [join]. now rewrite E, string_app_assoc.
Qed.

Lemma directives_nth (temp_name : nat -> string)
    (temp_files : list (string * string)) :
  forall n j key content,
    nth_error temp_files j = Some (key, content) ->
    In (nl ++ key ++ " " ++ temp_name (n + j))
       (directives temp_name n temp_files)
    /\ In (temp_name (n + j), content) (stored temp_name n temp_files).
Proof.
  induction temp_files as [|[k c] rest IH]; intros n j key content H.
  - destruct j; discriminate.
  - destruct j as [|j]; simpl in H.
    + injection H as -> ->. rewrite Nat.add_0_r. split; now left.
    + destruct (IH (S n) j key content H) as [Hd Hs].
      replace (n + S j) with (S n + j) by lia. split; now right.
Qed.

(** X12: an injection only adds text: whether the anchor occurs or not,
    the result is the input text cut in two with the directive line in
    between, so taking the directive out gives the input text back. *)
Theorem add_to_main_input_str_only_adds (main_str var name : string) :
  exists a b,
    main_str = a ++ b
    /\ add_to_main_input_str main_str var name
       = a ++ (nl ++ var ++ " " ++ name) ++ b
    /\ String.length (add_to_main_input_str main_str var name)
       = String.length main_str + (2 + String.length var + String.length name).
Proof.
  unfold add_to_main_input_str.
  set (e := Z.to_nat (find word main_str + Z.of_nat (String.length word))).
  exists (str_take e main_str), (str_drop e main_str).
  split; [now rewrite str_take_drop|]. split; [reflexivity|].
  rewrite <- (str_take_drop e main_str) at 3.
  rewrite !string_app_length. simpl String.length. lia.
Qed.

(** X13: an injection leaves the anchor where it is: when the anchor
    occurs in the input text, its first occurrence is found at the same
    index in the rewritten text, so the next injection lands at the same
    point. *)
Theorem add_to_main_input_str_keeps_anchor (main_str var name : string) :
  occurs word main_str ->
  find word (add_to_main_input_str main_str var name) = find word main_str.
Proof.
  intros H. destruct (occurs_first _ _ H) as (pre & suf & -> & Hfirst).
  rewrite (add_at_anchor pre suf var name Hfirst). unfold find.
  now rewrite !(find_from_first word pre _ 0 Hfirst).
Qed.

(** X14: every auxiliary file is stored under the path its directive
    names: when the anchor occurs in the input text, after the loop over
    the mapping each entry has its content in a temporary file, the text
    holds the directive line with the name of the entry and the path of
    that file, and one temporary file was made per entry. *)
Theorem write_temp_files_names_each_file (temp_name : nat -> string)
    (n : nat) (temp_files : list (string * string)) (main_str : string) :
  occurs word main_str ->
  forall n' text fs,
    write_temp_files temp_name n temp_files main_str [] = (n', text, fs) ->
    n' = n + List.length temp_files
    /\ List.length fs = List.length temp_files
    /\ forall j key content,
         nth_error temp_files j = Some (key, content) ->
         In (temp_name (n + j), content) fs
         /\ occurs (nl ++ key ++ " " ++ temp_name (n + j)) text.
Proof.
  intros H n' text fs Hw.
  destruct (occurs_first _ _ H) as (pre & suf & -> & Hfirst).
  rewrite (write_temp_files_at_anchor temp_name pre temp_files Hfirst) in Hw.
  injection Hw as <- <- <-. split; [reflexivity|]. split.
  - rewrite app_nil_r, length_rev.
    clear. revert n. induction temp_files as [|[k c] rest IH]; intros n;
      simpl; [reflexivity|]. now rewrite IH.
  - intros j key content Hj.
    destruct (directives_nth temp_name temp_files n j key content Hj)
      as [Hd Hs].
    split.
    + rewrite app_nil_r. now apply in_rev in Hs.
    + apply in_rev in Hd.
      destruct (occurs_in_join _ _ Hd) as (a & b & E). rewrite E.
      exists (pre ++ word ++ a), (b ++ suf). now rewrite !string_app_assoc.
Qed.

Section BatchProps.

Variable F : Type.
Variable float_of : string -> F.
Variable uvspec : files -> string -> string -> proc_result.
Variable temp_name : nat -> string.

Lemma run_conf_files_loop_raise (loc : string) (e : exn)
    (conf_file_list : list configuration) :
  forall i n log conf_results c text fs,
    nth_error (prepared temp_name n conf_file_list) i = Some (c, text, fs) ->
    (forall j p, j < i ->
       nth_error (prepared temp_name n conf_file_list) j = Some p ->
       exists r, contributes float_of uvspec loc p r) ->
    snd (run_libradtran float_of uvspec fs loc text (parser_options c))
    = Raise e ->
    snd (run_conf_files_loop float_of uvspec temp_name loc n conf_file_list
           log conf_results)
    = Raise e.
Proof.
  induction conf_file_list as [|c0 rest IH];
    intros i n log acc c text fs Hi Hbefore Hraise.
  - destruct i; discriminate.
  - cbn [run_conf_files_loop prepared] in *. unfold run_conf.
    destruct (prepare temp_name n c0) as [[n' text0] fs0].
    destruct i as [|i]; simpl in Hi.
    + injection Hi as -> -> ->.
      destruct (run_libradtran float_of uvspec fs loc text (parser_options c))
        as [out res]. cbn [snd] in Hraise. subst res. reflexivity.
    + destruct (Hbefore 0 (c0, text0, fs0)) as [r Hr]; [lia|reflexivity|].
      unfold contributes in Hr.
      destruct (run_libradtran float_of uvspec fs0 loc text0
                  (parser_options c0)) as [out res].
      cbn [snd] in Hr. subst res.
      apply (IH i n' _ _ c text fs Hi); [|exact Hraise].
      intros j p Hj Hp. apply (Hbefore (S j) p); [lia|exact Hp].
Qed.

(** X15: an exception in one configuration ends the batch: when the
    configurations before it return and [run_libradtran] raises on it,
    [run_conf_files_libradtran] raises the same exception and returns no
    list, so the results of the earlier configurations are lost. *)
Theorem run_conf_files_libradtran_exception_aborts (loc : string) (e : exn)
    (conf_file_list : list configuration) (i : nat) (c : configuration)
    (text : string) (fs : files) :
  nth_error (prepared temp_name 0 conf_file_list) i = Some (c, text, fs) ->
  (forall j p, j < i ->
     nth_error (prepared temp_name 0 conf_file_list) j = Some p ->
     exists r, contributes float_of uvspec loc p r) ->
  snd (run_libradtran float_of uvspec fs loc text (parser_options c))
  = Raise e ->
  snd (run_conf_files_libradtran float_of uvspec temp_name loc conf_file_list)
  = Raise e.
Proof.
  intros Hi Hbefore Hraise. unfold run_conf_files_libradtran.
  now apply (run_conf_files_loop_raise loc e conf_file_list i 0 [] []
               c text fs).
Qed.

End BatchProps.

(** ** Fields of a written text *)

Lemma before_hash_plain_app (t x : string) :
  plain t = true -> before_hash (t ++ x) = t ++ before_hash x.
Proof.
  induction t as [|c t IH]; simpl; intros H; [reflexivity|].
  apply andb_prop in H as [H Ht]. apply andb_prop in H as [_ Hc].
  apply negb_true_iff in Hc. now rewrite Hc, IH.
Qed.

Lemma ws_split_aux_plain_app (t x : string) :
  plain t = true ->
  forall cur,
    ws_split_aux (t ++ x) cur
    = ws_split_aux x (rev (list_ascii_of_string t) ++ cur)%list.
Proof.
  induction t as [|c t IH]; simpl; intros H cur; [reflexivity|].
  apply andb_prop in H as [H Ht]. apply andb_prop in H as [Hc _].
  apply negb_true_iff in Hc. rewrite Hc, (IH Ht).
  now rewrite <- app_assoc.
Qed.

Lemma rev_string_rev (t : string) :
  rev_string (rev (list_ascii_of_string t) ++ [])%list = t.
Proof.
  unfold rev_string. rewrite app_nil_r, rev_involutive.
  apply string_of_list_ascii_of_string.
Qed.

Lemma rev_chars_nonempty (t : string) :
  nonempty t = true -> (rev (list_ascii_of_string t) ++ [])%list <> [].
Proof.
  destruct t as [|c t]; [discriminate|]. intros _ H.
  apply (f_equal (@List.length ascii)) in H.
  rewrite app_nil_r, length_rev in H. discriminate H.
Qed.

Lemma before_hash_unwords (ts : list string) :
  forallb is_token ts = true -> before_hash (unwords ts) = unwords ts.
Proof.
  induction ts as [|t ts IH]; [reflexivity|]. intros H.
  simpl in H. apply andb_prop in H as [Ht Hts].
  unfold is_token in Ht. apply andb_prop in Ht as [_ Hp].
  destruct ts as [|u ts].
  - cbn [unwords]. rewrite <- (string_app_nil t) at 1.
    rewrite (before_hash_plain_app t "" Hp). simpl. apply string_app_nil.
  - change (unwords (t :: u :: ts)) with (t ++ " " ++ unwords (u :: ts)).
    rewrite (before_hash_plain_app _ _ Hp).
    change (before_hash (" " ++ unwords (u :: ts)))
      with (" " ++ before_hash (unwords (u :: ts))).
    now rewrite (IH Hts).
Qed.

Lemma ws_split_unwords (ts : list string) :
  forallb is_token ts = true -> ws_split (unwords ts) = ts.
Proof.
  unfold ws_split. induction ts as [|t ts IH]; [reflexivity|]. intros H.
  simpl in H. apply andb_prop in H as [Ht Hts].
  unfold is_token in Ht. apply andb_prop in Ht as [Hne Hp].
  pose proof (rev_chars_nonempty t Hne) as Hcur.
  destruct ts as [|u ts].
  - cbn [unwords]. rewrite <- (string_app_nil t) at 1.
    rewrite (ws_split_aux_plain_app t "" Hp). cbn [ws_split_aux].
    destruct (rev (list_ascii_of_string t) ++ [])%list eqn:E;
      [contradiction|]. rewrite <- E. now rewrite rev_string_rev.
  - change (unwords (t :: u :: ts)) with (t ++ " " ++ unwords (u :: ts)).
    rewrite (ws_split_aux_plain_app _ _ Hp).
    change (ws_split_aux (" " ++ unwords (u :: ts))
              (rev (list_ascii_of_string t) ++ []))
      with (match (rev (list_ascii_of_string t) ++ [])%list with
            | [] => ws_split_aux (unwords (u :: ts)) []
            | _ => rev_string (rev (list_ascii_of_string t) ++ [])
                   :: ws_split_aux (unwords (u :: ts)) []
            end).
    destruct (rev (list_ascii_of_string t) ++ [])%list eqn:E;
      [contradiction|]. rewrite <- E, rev_string_rev.
    now rewrite (IH Hts).
Qed.

(** The fields of words written with one blank between them. *)
Lemma tokens_unwords (ts : list string) :
  forallb is_token ts = true -> tokens (unwords ts) = ts.
Proof.
  intros H. unfold tokens.
  now rewrite (before_hash_unwords ts H), (ws_split_unwords ts H).
Qed.

Lemma plain_no_newline (t : string) : plain t = true -> no_newline t = true.
Proof.
  induction t as [|c t IH]; simpl; intros H; [reflexivity|].
  apply andb_prop in H as [H Ht]. apply andb_prop in H as [Hc _].
  rewrite (IH Ht), andb_true_r.
  destruct (Ascii.eqb c newline) eqn:E; [|reflexivity].
  apply Ascii.eqb_eq in E. subst c. discriminate Hc.
Qed.

Lemma no_newline_app (a b : string) :
  no_newline (a ++ b) = no_newline a && no_newline b.
Proof.
  induction a as [|c a IH]; simpl; [reflexivity|].
  now rewrite IH, andb_assoc.
Qed.

Lemma no_newline_unwords (ts : list string) :
  forallb is_token ts = true -> no_newline (unwords ts) = true.
Proof.
  induction ts as [|t ts IH]; [reflexivity|]. intros H.
  simpl in H. apply andb_prop in H as [Ht Hts].
  unfold is_token in Ht. apply andb_prop in Ht as [_ Hp].
  destruct ts as [|u ts].
  - now apply plain_no_newline.
  - change (unwords (t :: u :: ts)) with (t ++ " " ++ unwords (u :: ts)).
    rewrite !no_newline_app, (plain_no_newline t Hp), (IH Hts). reflexivity.
Qed.

Section TextProps.

Variable F : Type.
Variable float_of : string -> F.

Lemma filter_fields (m : nat) (lines : list string) :
  Forall (fun l => List.length (tokens l) = S m) lines ->
  filter (fun r => negb (Nat.eqb (List.length r) 0))
         (map tokens (lines ++ [""]))
  = map tokens lines.
Proof.
  induction 1 as [|l lines Hl _ IH]; [reflexivity|].
  cbn [app map filter]. rewrite Hl. cbn [Nat.eqb negb]. now rewrite IH.
Qed.

(** A text whose lines all hold the same number of fields, at least one,
    is read as the table of its fields. *)
Lemma genfromtxt_text_table (m : nat) (l0 : string) (lines : list string) :
  Forall (fun l => List.length (tokens l) = S m) (l0 :: lines) ->
  forallb no_newline (l0 :: lines) = true ->
  genfromtxt_text float_of (unlines (l0 :: lines))
  = Ok (squeeze (Nd2 (List.length (l0 :: lines)) (S m)
                   (map (fun l => map float_of (tokens l)) (l0 :: lines)))).
Proof.
  intros Hall Hnl. unfold genfromtxt_text.
  rewrite (split_unlines _ Hnl), (filter_fields m _ Hall).
  cbn [map].
  assert (Hrest : forallb (fun r => Nat.eqb (List.length r)
                                      (List.length (tokens l0)))
                          (map tokens lines) = true).
  { apply forallb_forall. intros r Hr.
    apply in_map_iff in Hr as (l & <- & Hl).
    inversion Hall as [|? ? H0 Hls]; subst.
    rewrite Forall_forall in Hls. rewrite (Hls l Hl), H0.
    apply Nat.eqb_refl. }
  rewrite Hrest.
  inversion Hall as [|? ? H0 _]; subst. rewrite H0.
  cbn [List.length map]. rewrite !length_map, map_map. reflexivity.
Qed.

End TextProps.

(** ** [profile_parser] and [array_to_string_parser] *)

Lemma unwords_snoc (pre : list string) (v : string) :
  pre <> [] -> unwords pre ++ " " ++ v = unwords (pre ++ [v]).
Proof.
  induction pre as [|x pre IH]; intros H; [contradiction|].
  destruct pre as [|y pre]; [reflexivity|].
  change (unwords (x :: y :: pre)) with (x ++ " " ++ unwords (y :: pre)).
  change (unwords ((x :: y :: pre) ++ [v]))
    with (x ++ " " ++ unwords ((y :: pre) ++ [v])).
  rewrite <- IH by discriminate. now rewrite !string_app_assoc.
Qed.

Section WriterProps.

Variable A B : Type.
Variable str_a : A -> string.
Variable str_b : B -> string.
Variable str_array : ndarray A -> string.
Variable fmt_a : A -> string.

Lemma profile_loop_tail (pairs : list (A * B)) :
  forall i s,
    profile_loop str_a str_b (S i) pairs (Some s)
    = Ok (Some (s ++ unlines (map (profile_line str_a str_b) pairs))).
Proof.
  induction pairs as [|[h v] rest IH]; intros i s.
  - simpl. now rewrite string_app_nil.
  - cbn [profile_loop load bind]. rewrite IH.
    cbn [map unlines]. unfold profile_line at 2. cbn [fst snd].
    now rewrite !string_app_assoc.
Qed.

Lemma array_loop_tail (vals : list (string * string)) :
  forall i pre, pre <> [] ->
    array_loop (S i) vals (Some (unwords pre))
    = Ok (Some (unwords (pre ++ map snd vals))).
Proof.
  induction vals as [|v vals IH]; intros i pre Hpre.
  - simpl. now rewrite app_nil_r.
  - cbn [array_loop load bind]. rewrite (unwords_snoc pre (snd v) Hpre).
    rewrite IH by (now destruct pre). cbn [map]. now rewrite <- app_assoc.
Qed.

Lemma profile_parser_text (a : A) (col1 : list A) (b : B) (col2 : list B) :
  profile_parser str_a str_b (a :: col1) (b :: col2)
  = Ok (unlines (map (profile_line str_a str_b)
                   (combine (a :: col1) (b :: col2)))).
Proof.
  unfold profile_parser. cbn [combine profile_loop].
  rewrite profile_loop_tail. cbn [bind load map unlines].
  unfold profile_line at 2. cbn [fst snd].
  now rewrite !string_app_assoc.
Qed.

(** X16: [profile_parser] needs a first pair: when one of the two columns
    is empty the loop never runs, the text is never bound, and the call
    raises [UnboundLocalError]. *)
Theorem profile_parser_empty_raises (col1 : list A) (col2 : list B) :
  col1 = [] \/ col2 = [] ->
  profile_parser str_a str_b col1 col2 = Raise UnboundLocalError.
Proof.
  intros [-> | ->]; [reflexivity|]. now destruct col1.
Qed.

(** X17: on two columns that are not empty [profile_parser] writes one
    line per pair, the two values with a blank between them and a newline
    after them, in the order of the columns; the pairs are those of [zip],
    so what the longer column has beyond the shorter one is left out. *)
Theorem profile_parser_lines (a : A) (col1 : list A) (b : B) (col2 : list B) :
  profile_parser str_a str_b (a :: col1) (b :: col2)
  = Ok (unlines (map (profile_line str_a str_b)
                   (combine (a :: col1) (b :: col2))))
  /\ List.length (combine (a :: col1) (b :: col2))
     = Nat.min (List.length (a :: col1)) (List.length (b :: col2)).
Proof.
  split; [apply profile_parser_text|apply length_combine].
Qed.

(** The 1-d arrays, case by case. *)
Lemma array_to_string_parser_1d (l : list A) :
  array_to_string_parser str_a str_array fmt_a (Nd1 l)
  = match l with
    | [] => Raise UnboundLocalError
    | [x] => Ok (str_array (Nd1 [x]))
    | _ => Ok (unwords (written str_a fmt_a l))
    end.
Proof.
  destruct l as [|x [|y l]]; try reflexivity.
  unfold array_to_string_parser. cbn [size List.length Nat.eqb items map].
  change (array_loop 0 ((str_a x, fmt_a x) :: ?r) None)
    with (array_loop 1 ((str_a y, fmt_a y)
                          :: map (fun z => (str_a z, fmt_a z)) l)
            (Some (unwords [str_a x]))).
  rewrite array_loop_tail by discriminate. cbn [bind load map snd app].
  rewrite map_map. reflexivity.
Qed.

(** X18: [array_to_string_parser] on a 1-d array: without an element it
    raises [UnboundLocalError]; with one element it gives what [str] writes
    for the whole array, not for the element; with more it gives the first
    element as [str] writes it and the others as the f-string writes them,
    in order, one blank between them. *)
Theorem array_to_string_parser_one_dimension :
  array_to_string_parser str_a str_array fmt_a (Nd1 [])
  = Raise UnboundLocalError
  /\ (forall x,
        array_to_string_parser str_a str_array fmt_a (Nd1 [x])
        = Ok (str_array (Nd1 [x])))
  /\ (forall x y l,
        array_to_string_parser str_a str_array fmt_a (Nd1 (x :: y :: l))
        = Ok (unwords (str_a x :: map fmt_a (y :: l)))).
Proof.
  repeat split; intros; now rewrite array_to_string_parser_1d.
Qed.

End WriterProps.

Section RoundTrips.

Variable F : Type.
Variable float_of : string -> F.

(** X19: what [profile_parser] writes is a file of two columns that numpy
    reads back: when [str] writes every value as one field, the text of two
    columns that are not empty is read by [np.genfromtxt] as the table with
    one row per pair, holding the two values as numpy reads them. *)
Theorem profile_parser_read_back {A B : Type} (str_a : A -> string)
    (str_b : B -> string) (a : A) (col1 : list A) (b : B) (col2 : list B) :
  forallb (fun x => is_token (str_a x)) (a :: col1) = true ->
  forallb (fun y => is_token (str_b y)) (b :: col2) = true ->
  exists text,
    profile_parser str_a str_b (a :: col1) (b :: col2) = Ok text
    /\ genfromtxt_text float_of text
       = Ok (squeeze
               (Nd2 (Nat.min (List.length (a :: col1)) (List.length (b :: col2)))
                  2
                  (map (fun p => [float_of (str_a (fst p));
                                  float_of (str_b (snd p))])
                     (combine (a :: col1) (b :: col2))))).
Proof.
  intros Ha Hb.
  pose proof (profile_parser_text A B str_a str_b a col1 b col2) as Htext.
  pose proof (length_combine (a :: col1) (b :: col2)) as Hlen.
  eexists. split; [exact Htext|].
  assert (Hpair : forall p, In p (combine (a :: col1) (b :: col2)) ->
            forallb is_token [str_a (fst p); str_b (snd p)] = true).
  { intros [h v] Hp. cbn [forallb fst snd].
    rewrite forallb_forall in Ha, Hb.
    rewrite (Ha h (in_combine_l _ _ _ _ Hp)), (Hb v (in_combine_r _ _ _ _ Hp)).
    reflexivity. }
  assert (Htok : forall p, In p (combine (a :: col1) (b :: col2)) ->
            tokens (profile_line str_a str_b p)
            = [str_a (fst p); str_b (snd p)]).
  { intros p Hp.
    exact (tokens_unwords [str_a (fst p); str_b (snd p)] (Hpair p Hp)). }
  remember (combine (a :: col1) (b :: col2)) as pairs eqn:Ep.
  destruct pairs as [|p0 pairs]; [discriminate Ep|].
  cbn [map]. rewrite (genfromtxt_text_table F float_of 1).
  - rewrite <- Hlen. cbn [List.length map]. rewrite !length_map.
    rewrite (Htok p0 (or_introl eq_refl)), map_map.
    do 3 f_equal. cbn [map]. f_equal. apply map_ext_in. intros p Hp.
    now rewrite (Htok p (or_intror Hp)).
  - apply Forall_forall. intros l Hl.
    change (profile_line str_a str_b p0
              :: map (profile_line str_a str_b) pairs)
      with (map (profile_line str_a str_b) (p0 :: pairs)) in Hl.
    apply in_map_iff in Hl as (p & <- & Hp). now rewrite (Htok p Hp).
  - change (profile_line str_a str_b p0
              :: map (profile_line str_a str_b) pairs)
      with (map (profile_line str_a str_b) (p0 :: pairs)).
    apply forallb_forall. intros l Hl.
    apply in_map_iff in Hl as (p & <- & Hp).
    exact (no_newline_unwords [str_a (fst p); str_b (snd p)] (Hpair p Hp)).
Qed.

(** X20: an array of two values or more comes back from its text: when
    [str] and the f-string write every value as one field that numpy reads
    as the value itself, [np.genfromtxt] on the text of
    [array_to_string_parser] gives the array again. *)
Theorem array_to_string_parser_read_back (str_a : F -> string)
    (str_array : ndarray F -> string) (fmt_a : F -> string) (l : list F) :
  2 <= List.length l ->
  forallb (fun x => is_token (str_a x) && is_token (fmt_a x)) l = true ->
  (forall x, In x l -> float_of (str_a x) = x /\ float_of (fmt_a x) = x) ->
  exists text,
    array_to_string_parser str_a str_array fmt_a (Nd1 l) = Ok text
    /\ tokens text = written str_a fmt_a l
    /\ genfromtxt float_of text = Nd1 l.
Proof.
  intros Hlen Htok Hback.
  exists (unwords (written str_a fmt_a l)).
  assert (Ht : tokens (unwords (written str_a fmt_a l))
               = written str_a fmt_a l).
  { apply tokens_unwords. apply forallb_forall. intros t Hin.
    rewrite forallb_forall in Htok.
    destruct l as [|x rest]; [contradiction|].
    destruct Hin as [<-|Hin].
    - specialize (Htok x (or_introl eq_refl)).
      now apply andb_prop in Htok as [Hs _].
    - apply in_map_iff in Hin as (z & <- & Hz).
      specialize (Htok z (or_intror Hz)).
      now apply andb_prop in Htok as [_ Hf]. }
  split; [|split].
  - rewrite array_to_string_parser_1d.
    destruct l as [|x [|y l]]; simpl in Hlen; try lia. reflexivity.
  - exact Ht.
  - unfold genfromtxt. rewrite Ht.
    destruct l as [|x [|y l]]; simpl in Hlen; try lia.
    cbn [written map]. f_equal.
    destruct (Hback x (or_introl eq_refl)) as [-> _].
    destruct (Hback y (or_intror (or_introl eq_refl))) as [_ ->].
    do 2 f_equal. rewrite map_map.
    rewrite <- (map_id l) at 2. apply map_ext_in.
    intros z Hz. apply Hback. right. now right.
Qed.

End RoundTrips.

(** ** [run_pmom] *)

Lemma forallb_false_in {A : Type} (p : A -> bool) (l : list A) (x : A) :
  In x l -> p x = false -> forallb p l = false.
Proof.
  intros Hin Hx. destruct (forallb p l) eqn:E; [|reflexivity].
  rewrite forallb_forall in E. rewrite (E x Hin) in Hx. discriminate.
Qed.

Section PmomProps.

Variable F : Type.
Variable float_of : string -> F.
Variable pmom : string -> string -> Z -> proc_result.



(** X22: the output is read before the status is looked at: when two
    lines of the output hold different numbers of fields (each at least
    one, the first of them being the first line), [run_pmom] raises
    numpy's [ValueError] whatever the exit status is, and the text of the
    error stream is lost. *)
Theorem run_pmom_ragged_output_raises_valueerror (l1 : string)
    (mid : list string) (l2 : string) (rest : list string)
    (loc profile_string : string) (moments : Z) :
  stdout (pmom loc profile_string moments)
  = unlines (l1 :: mid ++ l2 :: rest) ->
  forallb no_newline (l1 :: mid ++ l2 :: rest) = true ->
  1 <= List.length (tokens l1) ->
  1 <= List.length (tokens l2) ->
  List.length (tokens l2) <> List.length (tokens l1) ->
  run_pmom float_of pmom loc profile_string moments = PmomRaise ValueError.
Proof.
  intros Hout Hnl H1 H2 Hne. unfold run_pmom, genfromtxt_text.
  rewrite Hout, (split_unlines _ Hnl).
  cbn [app map filter].
  destruct (List.length (tokens l1)) as [|n1] eqn:E1; [lia|].
  cbn [Nat.eqb negb].
  rewrite (forallb_false_in _ _ (tokens l2)); [reflexivity| |].
  - apply filter_In. split.
    + apply in_map, in_or_app. left. apply in_or_app. right. now left.
    + destruct (List.length (tokens l2)); [lia|reflexivity].
  - rewrite E1. now apply Nat.eqb_neq.
Qed.


End PmomProps.

(** ** The properties on the examples *)

Lemma run_libradtran_empty_output_witness :
  run_libradtran literal echo_solver [] "bin" "" (mkConf 1 3)
  = ([], Ok (RetOutput [])).
Proof.
  refine (run_libradtran_empty_output string literal echo_solver
            (mkConf 1 3) [] "bin" "" eq_refl eq_refl _ _).
  - simpl; lia.
  - vm_compute. discriminate.
Defined.

Lemma run_libradtran_unknown_format_witness :
  run_libradtran literal echo_solver [] "bin" "550 1 2 3 4 5 6" (mkConf 3 0)
  = ([], Raise UnboundLocalError).
Proof.
  refine (run_libradtran_unknown_format string literal echo_solver
            (mkConf 3 0) [] "bin" "550 1 2 3 4 5 6" eq_refl _).
  simpl; lia.
Defined.

Lemma run_libradtran_zero_lines_per_case_witness :
  run_libradtran literal echo_solver [] "bin" "550 1 2 3 4 5 6"
    (mkConf 1 (-1))
  = ([], Raise ZeroDivisionError).
Proof.
  exact (run_libradtran_zero_lines_per_case string literal echo_solver
           (mkConf 1 (-1)) [] "bin" "550 1 2 3 4 5 6" eq_refl
           (or_introl (conj eq_refl eq_refl))).
Defined.

Lemma run_libradtran_negative_lines_per_case_witness :
  snd (run_libradtran literal echo_solver [] "bin"
         (unlines ["550 1 2 3 4 5 6"; "10 0.1"]) (mkConf 1 (-3)))
  = Ok (RetOutput []).
Proof.
  refine (run_libradtran_negative_lines_per_case string literal echo_solver
            (mkConf 1 (-3)) [] "bin"
            (unlines ["550 1 2 3 4 5 6"; "10 0.1"]) eq_refl _ _).
  - simpl; lia.
  - reflexivity.
Defined.

Lemma run_libradtran_records_carry_stderr_witness :
  returncode (echo_solver [] "bin"
                (unlines ["550 1 2 3 4 5 6"; "10 0.1"; "20 0.2"])) = 0%Z
  /\ Forall (fun r => o_message r
                      = stderr (echo_solver [] "bin"
                                  (unlines ["550 1 2 3 4 5 6"; "10 0.1";
                                            "20 0.2"])))
       [mkOutput "550" "1" "2" "3" "4" "5" "6"
          (Some (Nd1 ["10"; "20"])) None (Some (Nd1 ["0.1"; "0.2"])) None ""].
Proof.
  exact (run_libradtran_records_carry_stderr string literal echo_solver
           (mkConf 1 2) [] "bin"
           (unlines ["550 1 2 3 4 5 6"; "10 0.1"; "20 0.2"]) _ eq_refl).
Defined.

Lemma run_libradtran_ignores_unterminated_line_witness :
  run_libradtran literal echo_solver [] "bin"
    (unlines (List.concat [["550 1 2 3 4 5 6"]]) ++ "551 1 2") (mkConf 0 0)
  = ([], Ok (RetOutput (map (block_record string literal (mkConf 0 0) "")
                          [["550 1 2 3 4 5 6"]]))).
Proof.
  refine (run_libradtran_ignores_unterminated_line string literal echo_solver
            (mkConf 0 0) [["550 1 2 3 4 5 6"]] "551 1 2" [] "bin"
            (unlines (List.concat [["550 1 2 3 4 5 6"]]) ++ "551 1 2") ""
            _ _ eq_refl eq_refl eq_refl eq_refl).
  - simpl; lia.
  - reflexivity.
Defined.

Lemma run_libradtran_short_line_raises_witness :
  run_libradtran literal echo_solver [] "bin"
    (unlines (["550 1 2 3 4 5 6"] ++ "551 1 2" :: ["552 1 2 3 4 5 6"]))
    (mkConf 0 0)
  = ([], Raise IndexError).
Proof.
  exact (run_libradtran_short_line_raises string literal echo_solver
           (mkConf 0 0) ["550 1 2 3 4 5 6"] "551 1 2" ["552 1 2 3 4 5 6"]
           [] "bin"
           (unlines (["550 1 2 3 4 5 6"] ++ "551 1 2" :: ["552 1 2 3 4 5 6"]))
           "" eq_refl eq_refl eq_refl eq_refl eq_refl).
Defined.

Lemma run_libradtran_no_viewing_angle_raises_witness :
  snd (run_libradtran literal echo_solver [] "bin"
         (unlines ["550 1 2 3 4 5 6"]) (mkConf 1 0))
  = Raise UnboundLocalError.
Proof.
  refine (run_libradtran_no_viewing_angle_raises string literal echo_solver
            (mkConf 1 0) [] "bin" (unlines ["550 1 2 3 4 5 6"])
            eq_refl eq_refl (or_introl (conj eq_refl _))).
  simpl; lia.
Defined.

Lemma single_viewing_angle_gives_scalars_witness :
  output_format_2_parser literal ["550 1 2 3 4 5 6"; "10 0.1 a b"]
  = Ok (genfromtxt literal "550 1 2 3 4 5 6",
        Some (Nd0 (zenith string literal "10 0.1 a b")), None,
        Some (Nd0 (intensity string literal "10 0.1 a b")), None)
  /\ output_format_3_parser literal ["550 1 2 3 4 5 6"; "0 90"; "10 0.1 a b"]
     = Ok (genfromtxt literal "550 1 2 3 4 5 6",
           Some (Nd0 (zenith string literal "10 0.1 a b")),
           Some (genfromtxt literal "0 90"),
           Some (Nd0 (intensity string literal "10 0.1 a b")),
           Some (Nd2 2 1
                   (map (fun j => [field string literal (2 + j) "10 0.1 a b"])
                      (seq 0 2)))).
Proof.
  exact (single_viewing_angle_gives_scalars string literal 2
           "550 1 2 3 4 5 6" "0 90" "10 0.1 a b" eq_refl).
Defined.

Lemma output_format_2_parser_short_line_raises_witness :
  output_format_2_parser literal
    ("550 1 2 3 4 5 6" :: ["10 0.1"] ++ "20" :: ["30 0.3"])
  = Raise IndexError.
Proof.
  exact (output_format_2_parser_short_line_raises string literal
           "550 1 2 3 4 5 6" ["10 0.1"] "20" ["30 0.3"]
           eq_refl eq_refl eq_refl).
Defined.

Lemma output_format_3_parser_ragged_raises_witness :
  output_format_3_parser literal
    ("550 1 2 3 4 5 6" :: "0 90" :: "10 0.1 a b" :: [] ++ "20 0.2 c" :: [])
  = Raise ValueError.
Proof.
  refine (output_format_3_parser_ragged_raises string literal 2 1
            "550 1 2 3 4 5 6" "0 90" "10 0.1 a b" [] "20 0.2 c" []
            _ eq_refl _).
  - repeat constructor.
  - lia.
Defined.

Lemma add_to_main_input_str_keeps_anchor_witness :
  find word (add_to_main_input_str ("rte_solver disort" ++ nl ++ "verbose")
               "aerosol_file tau" "/tmp/d/f0")
  = find word ("rte_solver disort" ++ nl ++ "verbose").
Proof.
  apply (add_to_main_input_str_keeps_anchor
           ("rte_solver disort" ++ nl ++ "verbose")
           "aerosol_file tau" "/tmp/d/f0").
  exists "rte_solver ", (nl ++ "verbose"). reflexivity.
Defined.

Lemma write_temp_files_names_each_file_witness :
  2 = 0 + List.length [("aerosol_file tau", "7 0.2"); ("albedo_file", "0.1")]
  /\ List.length [("/tmp/d/f1", "0.1"); ("/tmp/d/f0", "7 0.2")]
     = List.length [("aerosol_file tau", "7 0.2"); ("albedo_file", "0.1")]
  /\ forall j key content,
       nth_error [("aerosol_file tau", "7 0.2"); ("albedo_file", "0.1")] j
       = Some (key, content) ->
       In (example_temp_name (0 + j), content)
          [("/tmp/d/f1", "0.1"); ("/tmp/d/f0", "7 0.2")]
       /\ occurs (nl ++ key ++ " " ++ example_temp_name (0 + j))
            ("rte_solver disort" ++ nl ++ "albedo_file /tmp/d/f1" ++ nl
               ++ "aerosol_file tau /tmp/d/f0" ++ nl ++ "verbose").
Proof.
  apply (write_temp_files_names_each_file example_temp_name 0
           [("aerosol_file tau", "7 0.2"); ("albedo_file", "0.1")]
           ("rte_solver disort" ++ nl ++ "verbose")).
  - exists "rte_solver ", (nl ++ "verbose"). reflexivity.
  - reflexivity.
Defined.

Lemma run_conf_files_libradtran_exception_aborts_witness :
  snd (run_conf_files_libradtran literal echo_solver example_temp_name "bin"
         example_batch_short_line)
  = Raise IndexError.
Proof.
  apply (run_conf_files_libradtran_exception_aborts string literal
           echo_solver example_temp_name "bin" IndexError
           example_batch_short_line 1
           (mkConfiguration (mkConf 0 0) (unlines ["551 1 2"]) None)
           (unlines ["551 1 2"]) []).
  - reflexivity.
  - intros j p Hj Hp. destruct j as [|j]; [|lia].
    injection Hp as <-. eexists. reflexivity.
  - reflexivity.
Defined.

Lemma profile_parser_empty_raises_witness :
  profile_parser literal literal [] ["0.2"; "0.2"] = Raise UnboundLocalError.
Proof.
  exact (profile_parser_empty_raises string string literal literal
           [] ["0.2"; "0.2"] (or_introl eq_refl)).
Defined.

Lemma profile_parser_read_back_witness :
  exists text,
    profile_parser literal literal ("0" :: ["10"; "20"]) ("51.9" :: ["9.0"])
    = Ok text
    /\ genfromtxt_text literal text
       = Ok (squeeze
               (Nd2 (Nat.min (List.length ("0" :: ["10"; "20"]))
                             (List.length ("51.9" :: ["9.0"])))
                  2
                  (map (fun p => [literal (literal (fst p));
                                  literal (literal (snd p))])
                     (combine ("0" :: ["10"; "20"]) ("51.9" :: ["9.0"]))))).
Proof.
  exact (profile_parser_read_back string literal literal literal
           "0" ["10"; "20"] "51.9" ["9.0"] eq_refl eq_refl).
Defined.

Lemma array_to_string_parser_read_back_witness :
  exists text,
    array_to_string_parser literal example_str_array literal
      (Nd1 ["1.5"; "2.5"; "4"])
    = Ok text
    /\ tokens text = written literal literal ["1.5"; "2.5"; "4"]
    /\ genfromtxt literal text = Nd1 ["1.5"; "2.5"; "4"].
Proof.
  refine (array_to_string_parser_read_back string literal literal
            example_str_array literal ["1.5"; "2.5"; "4"] _ eq_refl _).
  - simpl; lia.
  - intros x _. split; reflexivity.
Defined.


Lemma run_pmom_ragged_output_raises_valueerror_witness :
  run_pmom literal example_pmom "bin" (unlines ("1 2" :: [] ++ "3" :: [])) 4
  = PmomRaise ValueError.
Proof.
  refine (run_pmom_ragged_output_raises_valueerror string literal
            example_pmom "1 2" [] "3" [] "bin"
            (unlines ("1 2" :: [] ++ "3" :: [])) 4 eq_refl eq_refl _ _ _).
  - simpl; lia.
  - simpl; lia.
  - simpl; lia.
Defined.

